(** * beancount_import.source.dwight: loaders, key extraction, synthesis
      and reconciliation of a Dwight (Splitwise) CSV export.

    A shallow embedding of [src/beancount_import/source/dwight.py].
    Exceptions are explicit ([exn + A]), the file system is an explicit
    environment, Python dictionaries keyed by strings are [gmap]s, the
    set of missing accounts is a [gset]. *)

From Stdlib Require Import ZArith NArith Lia Ascii String Sorting.Sorted Permutation.
From stdpp Require Import base option list strings gmap.

Local Open Scope string_scope.
Local Open Scope list_scope.
Local Open Scope Z_scope.

(** ** Exceptions *)

(** The exceptions the module raises or lets through.  The three
    [RuntimeError]s are told apart by their arguments, as the source
    builds them. *)
Inductive exn : Type :=
| TypeError
| IndexError
| ValueError
| OSError
| OverflowError
  (* RuntimeError('Actual field names %r != expected field names %r') *)
| RuntimeError_field_names (actual : option (list string)) (expected : list string)
  (* RuntimeError('Invalid date: %r' % row['Date']) from e *)
| RuntimeError_invalid_date (raw : option string) (cause : exn)
  (* RuntimeError('CSV file has incorrect format', filename) from e *)
| RuntimeError_incorrect_format (filename : string) (cause : exn).

#[global] Instance exn_ret : MRet (sum exn) := fun _ x => inr x.
#[global] Instance exn_bind : MBind (sum exn) := fun _ _ f m =>
  match m with inl e => inl e | inr x => f x end.

Definition raise {A} (e : exn) : exn + A := inl e.

(** [try: m except Exception as e: raise h e] *)
Definition try_except {A} (m : exn + A) (h : exn -> exn) : exn + A :=
  match m with inl e => inl (h e) | inr x => inr x end.

(** The file path an exception carries among its arguments, if any. *)
Definition exn_filename (e : exn) : option string :=
  match e with
  | RuntimeError_incorrect_format filename _ => Some filename
  | _ => None
  end.

(** ** Strings *)

Fixpoint string_filter (p : ascii -> bool) (s : string) : string :=
  match s with
  | EmptyString => EmptyString
  | String c s' => if p c then String c (string_filter p s') else string_filter p s'
  end.

Fixpoint string_forallb (p : ascii -> bool) (s : string) : bool :=
  match s with
  | EmptyString => true
  | String c s' => p c && string_forallb p s'
  end.

(** [s.split(sep)] for a one-character separator. *)
Fixpoint split_on (sep : ascii) (s : string) : list string :=
  match s with
  | EmptyString => [EmptyString]
  | String c s' =>
      if Ascii.eqb c sep then EmptyString :: split_on sep s'
      else match split_on sep s' with
           | [] => [String c EmptyString]
           | w :: ws => String c w :: ws
           end
  end.

Definition is_digit (c : ascii) : bool :=
  let n := nat_of_ascii c in (48 <=? n)%nat && (n <=? 57)%nat.

Definition digit_value (c : ascii) : N := N.of_nat (nat_of_ascii c - 48).

(** [int(s)] for a string of ASCII digits (most significant first). *)
Fixpoint digits_value_from (acc : N) (s : string) : N :=
  match s with
  | EmptyString => acc
  | String c s' => digits_value_from (10 * acc + digit_value c)%N s'
  end.

Definition digits_value (s : string) : N := digits_value_from 0%N s.

Definition all_digits (s : string) : bool := string_forallb is_digit s.

(** The longest prefix of digits, and the rest. *)
Fixpoint span_digits (s : string) : string * string :=
  match s with
  | String c s' =>
      if is_digit c then let '(d, r) := span_digits s' in (String c d, r)
      else (EmptyString, s)
  | EmptyString => (EmptyString, EmptyString)
  end.

(** ** decimal.Decimal

    A finite decimal is [(-1)^sign * int * 10^exp], as in Python.  The
    constructor is exact.  The operators bring their result into the
    decimal context, the default one: 28 significant digits, rounding
    half to even, exponents down to [Etiny].  Above the largest
    exponent Python signals Overflow, which the default context traps;
    here the exponent is not bounded above.  The special values
    (infinities and NaNs) are outside this model: the constructor
    rejects them. *)
Record Decimal : Type := mkDecimal {
  dec_sign : bool;
  dec_int : N;
  dec_exp : Z
}.

Definition ZERO : Decimal := mkDecimal false 0 0.

Definition dec_signed (d : Decimal) : Z :=
  if dec_sign d then - Z.of_N (dec_int d) else Z.of_N (dec_int d).

(** [a == b] on decimals compares values, not representations. *)
Definition Decimal_eqb (a b : Decimal) : bool :=
  let m := Z.min (dec_exp a) (dec_exp b) in
  dec_signed a * 10 ^ (dec_exp a - m) =? dec_signed b * 10 ^ (dec_exp b - m).

(** The default context of the decimal module. *)
Definition context_prec : Z := 28.
Definition context_Emax : Z := 999999.
Definition context_Emin : Z := -999999.
Definition context_Etiny : Z := context_Emin - context_prec + 1.

Fixpoint count_digits (fuel : nat) (n : N) : Z :=
  match fuel with
  | O => 1
  | S fuel' => if (n <? 10)%N then 1 else 1 + count_digits fuel' (n / 10)
  end.

(** [len(str(n))], the number of digits of a coefficient. *)
Definition decimal_length (n : N) : Z := count_digits (N.size_nat n) n.

(** [Decimal._fix]: the decimal rounded, if need be, to fit the
    context.  A zero keeps its sign and has its exponent brought into
    the range of the context.  Another decimal keeps its
    representation when its digits fit in the precision above [Etiny];
    otherwise the digits past [exp_min] are dropped and the
    coefficient is rounded half to even, a carry out of the precision
    moving the exponent by one.  The result may be a zero. *)
Definition Decimal_fix (d : Decimal) : Decimal :=
  if (dec_int d =? 0)%N then
    mkDecimal (dec_sign d) 0 (Z.min (Z.max (dec_exp d) context_Etiny) context_Emax)
  else
    let exp_min :=
      Z.max (decimal_length (dec_int d) + dec_exp d - context_prec) context_Etiny in
    if dec_exp d <? exp_min then
      let scale := (10 ^ Z.to_N (exp_min - dec_exp d))%N in
      let kept := (dec_int d / scale)%N in
      let dropped := (dec_int d mod scale)%N in
      let coeff :=
        if (scale <? 2 * dropped)%N || ((2 * dropped =? scale)%N && N.odd kept)
        then (kept + 1)%N else kept in
      if (coeff =? 10 ^ Z.to_N context_prec)%N
      then mkDecimal (dec_sign d) (10 ^ Z.to_N (context_prec - 1)) (exp_min + 1)
      else mkDecimal (dec_sign d) coeff exp_min
    else d.

(** [-d]: the sign is switched, except that minus zero is zero; the
    result is brought into the context. *)
Definition Decimal_neg (d : Decimal) : Decimal :=
  Decimal_fix
    (if (dec_int d =? 0)%N then mkDecimal false (dec_int d) (dec_exp d)
     else mkDecimal (negb (dec_sign d)) (dec_int d) (dec_exp d)).


Definition is_space (c : ascii) : bool :=
  let n := nat_of_ascii c in
  ((9 <=? n)%nat && (n <=? 13)%nat) || ((28 <=? n)%nat && (n <=? 32)%nat).

Fixpoint lstrip (s : string) : string :=
  match s with
  | String c s' => if is_space c then lstrip s' else s
  | EmptyString => EmptyString
  end.

Definition strip (s : string) : string :=
  String.rev (lstrip (String.rev (lstrip s))).

(** An optional leading sign: [(negative, rest)]. *)
Definition read_sign (s : string) : bool * string :=
  match s with
  | String "-" s' => (true, s')
  | String "+" s' => (false, s')
  | _ => (false, s)
  end.

(** The optional exponent part (E, an optional sign, digits) closing a
    numeric string. *)
Definition read_exponent (s : string) : option Z :=
  match s with
  | EmptyString => Some 0
  | String c s' =>
      if Ascii.eqb c "e" || Ascii.eqb c "E" then
        let '(neg, ds) := read_sign s' in
        if all_digits ds && negb (String.eqb ds "") then
          Some (if neg then - Z.of_N (digits_value ds) else Z.of_N (digits_value ds))
        else None
      else None
  end.

(** [decimal.Decimal(s)] on the numeric strings: surrounding white
    space and underscores are dropped; then an optional sign, digits
    with an optional fractional part (at least one digit in all), and
    an optional exponent. *)
Definition Decimal_of_string (s : string) : option Decimal :=
  let s := string_filter (fun c => negb (Ascii.eqb c "_")) (strip s) in
  let '(neg, s) := read_sign s in
  let '(intpart, s) := span_digits s in
  let '(fracpart, s) :=
    match s with
    | String "." s' => span_digits s'
    | _ => (EmptyString, s)
    end in
  if String.eqb intpart "" && String.eqb fracpart "" then None
  else
    e ← read_exponent s;
    Some (mkDecimal neg (digits_value (String.append intpart fracpart))
                    (e - Z.of_nat (String.length fracpart))).

(** [beancount.core.number.D]: the empty string is zero; commas and
    spaces are removed before the conversion; a failed conversion is a
    [ValueError]. *)
Definition D (strord : string) : exn + Decimal :=
  if String.eqb strord "" then inr ZERO
  else
    let clean := string_filter (fun c => negb (Ascii.eqb c "," || Ascii.eqb c " ")) strord in
    match Decimal_of_string clean with
    | Some d => inr d
    | None => raise ValueError
    end.

(** ** beancount.core.amount.Amount *)
Record Amount : Type := mkAmount {
  number : Decimal;
  currency : string
}.

(** [Amount.__neg__] *)
Definition Amount_neg (a : Amount) : Amount :=
  mkAmount (Decimal_neg (number a)) (currency a).

Definition Amount_eqb (a b : Amount) : bool :=
  Decimal_eqb (number a) (number b) && String.eqb (currency a) (currency b).

(** ** datetime.date *)
Record Date : Type := mkDate {
  year : Z;
  month : Z;
  day : Z
}.

Definition is_leap (y : Z) : bool :=
  (y mod 4 =? 0) && (negb (y mod 100 =? 0) || (y mod 400 =? 0)).

Definition days_in_month (y m : Z) : Z :=
  if m =? 2 then (if is_leap y then 29 else 28)
  else if (m =? 4) || (m =? 6) || (m =? 9) || (m =? 11) then 30
  else 31.

(** The dates a [datetime.date] object can hold (years 1 to 9999). *)
Definition valid_date (d : Date) : bool :=
  (1 <=? year d) && (year d <=? 9999) &&
  (1 <=? month d) && (month d <=? 12) &&
  (1 <=? day d) && (day d <=? days_in_month (year d) (month d)).

Definition date_eqb (a b : Date) : bool :=
  (year a =? year b) && (month a =? month b) && (day a =? day b).

(** [a <= b]: dates compare as the tuples (year, month, day). *)
Definition date_leb (a b : Date) : bool :=
  (year a <? year b) ||
  ((year a =? year b) &&
   ((month a <? month b) || ((month a =? month b) && (day a <=? day b)))).

Definition days_before_year (y : Z) : Z :=
  let y' := y - 1 in y' * 365 + y' / 4 - y' / 100 + y' / 400.

Fixpoint days_before_month_upto (y : Z) (m : nat) : Z :=
  match m with
  | O => 0
  | S m' => days_before_month_upto y m' + days_in_month y (Z.of_nat m)
  end.

Definition days_before_month (y m : Z) : Z :=
  days_before_month_upto y (Z.to_nat (m - 1)).

(** [date.toordinal()]: 0001-01-01 is day 1. *)
Definition toordinal (d : Date) : Z :=
  days_before_year (year d) + days_before_month (year d) (month d) + day d.

(** [date.max] *)
Definition date_max : Date := mkDate 9999 12 31.

(** [d + datetime.timedelta(days=1)]: the next day of the calendar;
    past [date.max] Python raises [OverflowError]. *)
Definition date_add_one_day (d : Date) : exn + Date :=
  if date_eqb d date_max then raise OverflowError
  else if day d <? days_in_month (year d) (month d) then
    inr (mkDate (year d) (month d) (day d + 1))
  else if month d <? 12 then inr (mkDate (year d) (month d + 1) 1)
  else inr (mkDate (year d + 1) 1 1).

(** The month directive of [strptime]: 1[0-2], 0[1-9] or [1-9]. *)
Definition read_month (s : string) : option Z :=
  if all_digits s then
    let v := Z.of_N (digits_value s) in
    let n := String.length s in
    if ((n =? 1)%nat || (n =? 2)%nat) && (1 <=? v) && (v <=? 12) then Some v else None
  else None.

(** The day directive of [strptime]: 3[0-1], [1-2]\d, 0[1-9], [1-9],
    or a space and [1-9]. *)
Definition read_day (s : string) : option Z :=
  let s := match s with String " " (String c EmptyString) => String c EmptyString | _ => s end in
  if all_digits s then
    let v := Z.of_N (digits_value s) in
    let n := String.length s in
    if ((n =? 1)%nat || (n =? 2)%nat) && (1 <=? v) && (v <=? 31) then Some v else None
  else None.

Definition dwight_date_format : string := "%Y-%m-%d".

(** [datetime.datetime.strptime(s, dwight_date_format).date()]: four
    digits, one or two for the month, one or two for the day, with
    dashes between and nothing around; the date must exist.  Any failure
    is a [ValueError].  (Digits are the ASCII ones.) *)
Definition strptime_date (s : string) : exn + Date :=
  match split_on "-" s with
  | [ys; ms; ds] =>
      if all_digits ys && (String.length ys =? 4)%nat then
        match read_month ms, read_day ds with
        | Some m, Some d =>
            let r := mkDate (Z.of_N (digits_value ys)) m d in
            if valid_date r then inr r else raise ValueError
        | _, _ => raise ValueError
        end
      else raise ValueError
  | _ => raise ValueError
  end.

(** [strptime] of a dictionary value: [None] is a [TypeError]. *)
Definition strptime_value (v : option string) : exn + Date :=
  match v with
  | Some s => strptime_date s
  | None => raise TypeError
  end.

(** ** The CSV file *)

(** One record of the file, as [csv.reader] yields it. *)
Definition Row : Type := list string.

(** The part of the file system the module reads: [os.path.abspath],
    and the records of the CSV file at a path ([None]: [open] fails). *)
Record FileSystem : Type := mkFileSystem {
  abspath : string -> string;
  open_csv : string -> option (list Row)
}.

Definition expected_field_names : list string :=
  ["Date"; "Description"; "Category"; "Cost"; "Currency"; "Zhuohan Li"; "Zhanghao Wu"].

(** [csv.DictReader(csvfile).fieldnames]: the first record, [None] for
    an empty file. *)
Definition DictReader_fieldnames (records : list Row) : option (list string) :=
  head records.

(** The rows [csv.DictReader] yields: the records after the header,
    without the empty ones. *)
Definition DictReader_rows (records : list Row) : list Row :=
  filter (fun r => r ≠ []) (tail records).

Fixpoint index_of (key : string) (names : list string) : option nat :=
  match names with
  | [] => None
  | n :: names' => if String.eqb key n then Some O else S <$> index_of key names'
  end.

(** [row[key]] for a row of a reader whose field names are the expected
    ones: the value in the column of [key], [None] (the reader's
    [restval]) in a record too short to have it. *)
Definition row_get (row : Row) (key : string) : option string :=
  i ← index_of key expected_field_names; row !! i.

(** [reader.fieldnames != expected_field_names] raises. *)
Definition check_field_names (records : list Row) : exn + unit :=
  if decide (DictReader_fieldnames records = Some expected_field_names) then inr tt
  else raise (RuntimeError_field_names (DictReader_fieldnames records) expected_field_names).

(** [open(filename, ...)] *)
Definition open_file (fs : FileSystem) (filename : string) : exn + list Row :=
  match open_csv fs filename with
  | Some records => inr records
  | None => raise OSError
  end.

(** [sgn = v[0]; D(v) if sgn != '-' else -D(v[1:])] *)
Definition signed_number (v : option string) : exn + Decimal :=
  match v with
  | None => raise TypeError
  | Some EmptyString => raise IndexError
  | Some (String sgn rest as s) =>
      if negb (Ascii.eqb sgn "-") then D s
      else n ← D rest; mret (Decimal_neg n)
  end.

(** [try: strptime(row['Date'], ...) except Exception as e:
     raise RuntimeError('Invalid date: %r' % row['Date']) from e] *)
Definition row_date (row : Row) : exn + Date :=
  try_except (strptime_value (row_get row "Date"))
             (RuntimeError_invalid_date (row_get row "Date")).

(** ** Records *)

Module DwightEntry.
(** [account] is either the dwight_id or the journal account name. *)
Record t : Type := mk {
  account : string;
  date : Date;
  amount : Amount;
  source_desc : string;
  filename : string;
  line : nat
}.
End DwightEntry.

Module RawBalance.
Record t : Type := mk {
  account : string;
  date : Date;
  amount : Amount;
  filename : string;
  line : nat
}.
End RawBalance.

(** The provenance dictionary [get_info] builds. *)
Module Info.
Record t : Type := mk {
  type : string;
  filename : string;
  line : nat
}.
End Info.

(** What [get_info] and [get_converted_dwight_entries] use of a raw
    entry, whichever of the two named tuples it is. *)
Class RawEntry (R : Type) : Type := {
  raw_account : R -> string;
  raw_filename : R -> string;
  raw_line : R -> nat;
  (* [raw._replace(account=a)] *)
  replace_account : R -> string -> R
}.

#[global] Instance DwightEntry_raw : RawEntry DwightEntry.t := {|
  raw_account := DwightEntry.account;
  raw_filename := DwightEntry.filename;
  raw_line := DwightEntry.line;
  replace_account x a :=
    DwightEntry.mk a (DwightEntry.date x) (DwightEntry.amount x)
                   (DwightEntry.source_desc x) (DwightEntry.filename x) (DwightEntry.line x)
|}.

#[global] Instance RawBalance_raw : RawEntry RawBalance.t := {|
  raw_account := RawBalance.account;
  raw_filename := RawBalance.filename;
  raw_line := RawBalance.line;
  replace_account x a :=
    RawBalance.mk a (RawBalance.date x) (RawBalance.amount x)
                  (RawBalance.filename x) (RawBalance.line x)
|}.

Definition get_info {R} `{RawEntry R} (raw_entry : R) : Info.t :=
  Info.mk "text/csv" (raw_filename raw_entry) (raw_line raw_entry).

(** [for line_i, row in enumerate(reader): body], from index [line_i]
    on, with the records the body appends; the body's [None] is
    [continue], and an exception of the body ends the loop. *)
Fixpoint for_enumerate {A} (body : nat -> Row -> exn + option A) (line_i : nat)
    (rows : list Row) : exn + list A :=
  match rows with
  | [] => mret []
  | row :: rows' =>
      r ← body line_i row;
      entries ← for_enumerate body (S line_i) rows';
      mret (match r with Some e => e :: entries | None => entries end)
  end.

(** ** load_transactions *)

(** The body of the loop of [load_transactions] for one row; [None] is
    [continue].  A row that has its last column has them all, so the
    description of a row that gets this far is a string. *)
Definition transaction_of_row (filename currency : string) (line_i : nat) (row : Row)
  : exn + option DwightEntry.t :=
  let account := "Zhuohan Li" in
  number ← signed_number (row_get row "Zhanghao Wu");
  if Decimal_eqb number ZERO || bool_decide (row_get row "Description" = Some "Total balance")
  then mret None
  else
    date ← row_date row;
    match row_get row "Description" with
    | Some desc =>
        mret (Some (DwightEntry.mk account date (mkAmount number currency) desc
                                   filename (line_i + 1)))
    | None => raise TypeError
    end.

(** [list.sort(key=lambda x: x.date)] is stable: an element is inserted
    before the first one of a strictly greater key. *)
Fixpoint insert_by_date (x : DwightEntry.t) (l : list DwightEntry.t) : list DwightEntry.t :=
  match l with
  | [] => [x]
  | y :: l' => if date_leb (DwightEntry.date x) (DwightEntry.date y) then x :: y :: l'
               else y :: insert_by_date x l'
  end.

Fixpoint sort_by_date (l : list DwightEntry.t) : list DwightEntry.t :=
  match l with
  | [] => []
  | x :: l' => insert_by_date x (sort_by_date l')
  end.

(** [currency] is [None] when the caller leaves the default, 'USD'. *)
Definition load_transactions (fs : FileSystem) (filename : string) (currency : option string)
  : exn + list DwightEntry.t :=
  let currency := default "USD" currency in
  let filename := abspath fs filename in
  try_except
    (records ← open_file fs filename;
     _ ← check_field_names records;
     entries ← for_enumerate (transaction_of_row filename currency) 0 (DictReader_rows records);
     mret (sort_by_date (rev entries)))
    (RuntimeError_incorrect_format filename).

(** ** load_balances *)

(** The body of the loop of [load_balances] for one row.  The amount of
    a row that gets to the last line was read from the last column, so
    its currency column is a string. *)
Definition balance_of_row (filename account : string) (line_i : nat) (row : Row)
  : exn + option RawBalance.t :=
  if bool_decide (row_get row "Description" ≠ Some "Total balance") then mret None
  else
    date ← row_date row;
    number ← signed_number (row_get row "Zhanghao Wu");
    match row_get row "Currency" with
    | Some cur =>
        mret (Some (RawBalance.mk account date (mkAmount number cur) filename (line_i + 1)))
    | None => raise TypeError
    end.

Definition load_balances (fs : FileSystem) (filename : string) : exn + list RawBalance.t :=
  let filename := abspath fs filename in
  records ← open_file fs filename;
  _ ← check_field_names records;
  let account := "Zhuohan Li" in
  for_enumerate (balance_of_row filename account) 0 (DictReader_rows records).

(** ** Ledger directives (beancount.core.data) *)

Inductive MetaValue : Type :=
| MetaStr (s : string)
| MetaDate (d : Date)
| MetaNumber (n : Decimal).

(** A metadata dictionary, in the order of its keys. *)
Definition Meta : Type := list (string * MetaValue).

Fixpoint meta_get (meta : Meta) (key : string) : option MetaValue :=
  match meta with
  | [] => None
  | (k, v) :: meta' => if String.eqb k key then Some v else meta_get meta' key
  end.

Module Posting.
Record t : Type := mk {
  account : string;
  units : Amount;
  cost : option Amount;
  price : option Amount;
  flag : option string;
  meta : option Meta
}.
End Posting.

Module Transaction.
Record t : Type := mk {
  meta : option Meta;
  date : Date;
  flag : string;
  payee : option string;
  narration : string;
  tags : gset string;
  links : gset string;
  postings : list Posting.t
}.
End Transaction.

Module Balance.
Record t : Type := mk {
  account : string;
  date : Date;
  meta : option Meta;
  amount : Amount;
  tolerance : option Decimal;
  diff_amount : option Amount
}.
End Balance.

Module Open.
Record t : Type := mk {
  account : string;
  date : Date;
  meta : option Meta
}.
End Open.

Inductive Directive : Type :=
| DTransaction (t : Transaction.t)
| DBalance (b : Balance.t)
| DOpen (o : Open.t).

Definition FLAG_OKAY : string := "*".
Definition EMPTY_SET : gset string := ∅.

(** Modelled from the spec: the constant [FIXME_ACCOUNT] of the
    [matching] module, the "needs review" placeholder account of a
    draft; the format this module documents shows it as
    Expenses:FIXME. *)
Definition FIXME_ACCOUNT : string := "Expenses:FIXME".

(** Modelled from the spec: [ImportResult] of the source package, a
    proposal: its date, its provenance and the entries proposed. *)
Module ImportResult.
Record t : Type := mk {
  date : Date;
  info : Info.t;
  entries : list Directive
}.
End ImportResult.

(** ** Key extraction *)

(** (account, date, amount, description) *)
Definition MatchKey : Type := string * Date * Amount * string.

(** [k1 == k2] on the key tuples. *)
Definition MatchKey_eqb (k1 k2 : MatchKey) : bool :=
  let '(a1, d1, m1, s1) := k1 in
  let '(a2, d2, m2, s2) := k2 in
  String.eqb a1 a2 && date_eqb d1 d2 && Amount_eqb m1 m2 && String.eqb s1 s2.

Definition _get_key_from_posting (entry : Transaction.t) (posting : Posting.t)
    (source_postings : list Posting.t) (source_desc : string) (posting_date : Date)
  : MatchKey :=
  (Posting.account posting, posting_date, Posting.units posting, source_desc).

Definition _get_key_from_csv_entry (x : DwightEntry.t) : MatchKey :=
  (DwightEntry.account x, DwightEntry.date x, DwightEntry.amount x, DwightEntry.source_desc x).

(** ** Synthesis of a draft transaction *)

Definition _make_import_result (dwight_entry : DwightEntry.t) : ImportResult.t :=
  let transaction :=
    Transaction.mk
      None
      (DwightEntry.date dwight_entry)
      FLAG_OKAY
      None
      (DwightEntry.source_desc dwight_entry)
      EMPTY_SET
      EMPTY_SET
      [ Posting.mk
          (DwightEntry.account dwight_entry)
          (DwightEntry.amount dwight_entry)
          None None None
          (Some [ ("source_desc", MetaStr (DwightEntry.source_desc dwight_entry));
                  ("date", MetaDate (DwightEntry.date dwight_entry)) ]);
        Posting.mk
          FIXME_ACCOUNT
          (Amount_neg (DwightEntry.amount dwight_entry))
          None None None
          None ] in
  ImportResult.mk (DwightEntry.date dwight_entry) (get_info dwight_entry)
                  [DTransaction transaction].

(** ** The ledger and the results, as this module uses them *)

(** Modelled from the spec: the [JournalEditor] of the ledger
    collaborator, read-only: the accounts with their metadata (the
    open directives) and the recorded entries. *)
Module JournalEditor.
Record t : Type := mk {
  accounts : list Open.t;
  all_entries : list Directive
}.
End JournalEditor.

(** The warning 'No Beancount account associated with Dwight account
    %r.', kept as its argument. *)
Inductive Warning : Type :=
| NoAccountWarning (dwight_account : string).

(** Modelled from the spec: [SourceResults], the reconciliation result
    a source fills: the pending proposals, the ledger postings found
    invalid, and the warnings. *)
Module SourceResults.
Record t : Type := mk {
  pending : list ImportResult.t;
  invalid : list (Transaction.t * Posting.t);
  warnings : list Warning
}.
Definition empty : t := mk [] [] [].
Definition add_pending_entry (results : t) (r : ImportResult.t) : t :=
  mk (pending results ++ [r]) (invalid results) (warnings results).
Definition add_invalid_reference (results : t) (r : Transaction.t * Posting.t) : t :=
  mk (pending results) (invalid results ++ [r]) (warnings results).
Definition add_warning (results : t) (w : Warning) : t :=
  mk (pending results) (invalid results) (warnings results ++ [w]).
End SourceResults.

(** Modelled from the spec: [get_account_mapping] of
    [description_based_source] (section 4.2): from the accounts and the
    external identifier in their metadata under [metadata_key], the
    two directions of the association.  It fails nothing itself. *)
Definition get_account_mapping (accounts : list Open.t) (metadata_key : string)
  : gmap string string * gmap string string :=
  foldl (fun '(account_to_id, id_to_account) entry =>
           match Open.meta entry ≫= (fun meta => meta_get meta metadata_key) with
           | Some (MetaStr account_id) =>
               (<[Open.account entry := account_id]> account_to_id,
                <[account_id := Open.account entry]> id_to_account)
           | _ => (account_to_id, id_to_account)
           end)
        (∅, ∅) accounts.

(** ** The reconciliation engine *)

(** Modelled from the spec: a recorded posting, with its transaction;
    what the engine reports as invalid. *)
Definition LedgerPosting : Type := Transaction.t * Posting.t.

(** Modelled from the spec: the description and the match date of a
    recorded posting (the LedgerPostingView of section 3), which the
    engine takes from its [source_desc] and [date] metadata. *)
Definition posting_source (posting : Posting.t) : option (string * Date) :=
  meta ← Posting.meta posting;
  match meta_get meta "source_desc", meta_get meta "date" with
  | Some (MetaStr source_desc), Some (MetaDate posting_date) => Some (source_desc, posting_date)
  | _, _ => None
  end.

(** Modelled from the spec: step 2 of the engine, the postings of one
    entry that belong to a mapped account, with their keys. *)
Definition keyed_postings (account_set : gset string)
    (get_key_from_posting : Transaction.t -> Posting.t -> list Posting.t -> string -> Date -> MatchKey)
    (entry : Directive) : list (MatchKey * LedgerPosting) :=
  match entry with
  | DTransaction t =>
      omap (fun posting =>
              if decide (Posting.account posting ∈ account_set) then
                '(source_desc, posting_date) ← posting_source posting;
                Some (get_key_from_posting t posting (Transaction.postings t)
                                           source_desc posting_date,
                      (t, posting))
              else None)
           (Transaction.postings t)
  | _ => []
  end.

(** Modelled from the spec: step 4 of the engine for one record, one
    occurrence of [key] taken out of the remaining postings: the first
    one, [None] when its multiplicity is exhausted. *)
Fixpoint consume (key : MatchKey) (remaining : list (MatchKey * LedgerPosting))
  : option (list (MatchKey * LedgerPosting)) :=
  match remaining with
  | [] => None
  | (k, tp) :: rest =>
      if MatchKey_eqb key k then Some rest
      else cons (k, tp) <$> consume key rest
  end.

(** Modelled from the spec: steps 4 and 5 of the engine, the external
    records in their order against the remaining postings: the
    records left pending, and the postings no record consumed. *)
Fixpoint match_entries {R} (get_key_from_raw_entry : R -> MatchKey)
    (raw_entries : list R) (remaining : list (MatchKey * LedgerPosting))
  : list R * list (MatchKey * LedgerPosting) :=
  match raw_entries with
  | [] => ([], remaining)
  | raw_entry :: rest =>
      match consume (get_key_from_raw_entry raw_entry) remaining with
      | Some remaining' => match_entries get_key_from_raw_entry rest remaining'
      | None =>
          let '(pending, unmatched) := match_entries get_key_from_raw_entry rest remaining in
          (raw_entry :: pending, unmatched)
      end
  end.

(** Modelled from the spec: [get_pending_and_invalid_entries] of
    [description_based_source], the multiset matching by key of section
    4.4.  The recorded postings of the mapped accounts are keyed; each
    external record, in order, consumes one remaining posting of its
    key or else becomes pending; the postings left over are invalid.
    Which posting of a key is consumed first is left open by the spec:
    here the first in ledger order. *)
Definition get_pending_and_invalid_entries {R}
    (raw_entries : list R)
    (journal_entries : list Directive)
    (account_set : gset string)
    (get_key_from_posting : Transaction.t -> Posting.t -> list Posting.t -> string -> Date -> MatchKey)
    (get_key_from_raw_entry : R -> MatchKey)
    (make_import_result : R -> ImportResult.t)
    (results : SourceResults.t) : SourceResults.t :=
  let ledger := journal_entries ≫= keyed_postings account_set get_key_from_posting in
  let '(pending, unmatched) := match_entries get_key_from_raw_entry raw_entries ledger in
  let results := foldl SourceResults.add_pending_entry results (make_import_result <$> pending) in
  foldl SourceResults.add_invalid_reference results (snd <$> unmatched).

(** ** DwightSource *)

(** [get_converted_dwight_entries], the generator local to [prepare],
    run to its end: the entries it yields, and [missing_accounts] as
    it leaves it.  [if not account] holds of [None] and of the empty
    string. *)
Fixpoint get_converted_dwight_entries {R} `{RawEntry R}
    (dwight_id_to_account : gmap string string)
    (entries : list R) (missing_accounts : gset string) : list R * gset string :=
  match entries with
  | [] => ([], missing_accounts)
  | raw_dwight_entry :: rest =>
      match dwight_id_to_account !! raw_account raw_dwight_entry with
      | Some (String _ _ as account) =>
          let match_entry := replace_account raw_dwight_entry account in
          let '(converted, missing_accounts) :=
            get_converted_dwight_entries dwight_id_to_account rest missing_accounts in
          (match_entry :: converted, missing_accounts)
      | _ =>
          get_converted_dwight_entries dwight_id_to_account rest
            ({[raw_account raw_dwight_entry]} ∪ missing_accounts)
      end
  end.

(** The last loop of [prepare]: a balance assertion, dated the day
    after, for each converted balance. *)
Fixpoint add_balance_entries (raw_balances : list RawBalance.t) (results : SourceResults.t)
  : exn + SourceResults.t :=
  match raw_balances with
  | [] => mret results
  | raw_balance :: rest =>
      date ← date_add_one_day (RawBalance.date raw_balance);
      add_balance_entries rest
        (SourceResults.add_pending_entry results
           (ImportResult.mk date (get_info raw_balance)
              [DBalance (Balance.mk (RawBalance.account raw_balance) date None
                                    (RawBalance.amount raw_balance) None None)]))
  end.

Module DwightSource.
Record t : Type := mk {
  filename : string;
  balances_directory : option string;
  (* In these entries, account refers to the dwight_id, not the journal account. *)
  dwight_entries : list DwightEntry.t;
  balances : list RawBalance.t
}.

Definition __init__ (fs : FileSystem) (filename : string) (balances_directory : option string)
  : exn + t :=
  dwight_entries ← load_transactions fs filename None;
  balances ← match balances_directory with
             | Some (String _ _ as dir) => load_balances fs dir
             | _ => mret []
             end;
  mret (mk filename balances_directory dwight_entries balances).

Definition prepare (self : t) (journal : JournalEditor.t) (results : SourceResults.t)
  : exn + SourceResults.t :=
  let '(account_to_dwight_id, dwight_id_to_account) :=
    get_account_mapping (JournalEditor.accounts journal) "dwight_id" in
  let missing_accounts : gset string := ∅ in
  let '(converted, missing_accounts) :=
    get_converted_dwight_entries dwight_id_to_account (dwight_entries self) missing_accounts in
  let results :=
    get_pending_and_invalid_entries
      converted
      (JournalEditor.all_entries journal)
      (dom account_to_dwight_id)
      _get_key_from_posting
      _get_key_from_csv_entry
      _make_import_result
      results in
  let results :=
    foldl (fun results dwight_account =>
             SourceResults.add_warning results (NoAccountWarning dwight_account))
          results (elements missing_accounts) in
  let '(converted_balances, _) :=
    get_converted_dwight_entries dwight_id_to_account (balances self) missing_accounts in
  add_balance_entries converted_balances results.

Definition name (self : t) : string := "dwight".
End DwightSource.

(** ** Notions the statements use *)

(** The order [load_transactions] leaves its records in: ascending
    dates, and on equal dates the later row first. *)
Definition date_then_later_row (a b : DwightEntry.t) : Prop :=
  date_leb (DwightEntry.date a) (DwightEntry.date b) = true /\
  (DwightEntry.date a = DwightEntry.date b -> (DwightEntry.line b < DwightEntry.line a)%nat).

(** A proposal of a balance assertion, as opposed to a draft
    transaction. *)
Definition is_balance_proposal (r : ImportResult.t) : bool :=
  match ImportResult.entries r with
  | [DBalance _] => true
  | _ => false
  end.

(** The ledger once the user has accepted proposals: their entries are
    appended to the recorded ones. *)
Definition accept (journal : JournalEditor.t) (proposals : list ImportResult.t)
  : JournalEditor.t :=
  JournalEditor.mk (JournalEditor.accounts journal)
                   (JournalEditor.all_entries journal ++ (proposals ≫= ImportResult.entries)).

(** [account = dwight_id_to_account.get(id)] when it passes
    [if not account], [None] when it does not. *)
Definition resolve_account (dwight_id_to_account : gmap string string) (dwight_id : string)
  : option string :=
  match dwight_id_to_account !! dwight_id with
  | Some (String _ _ as account) => Some account
  | _ => None
  end.

(** The two directions of the account mapping of a ledger. *)
Definition account_to_dwight_id (journal : JournalEditor.t) : gmap string string :=
  fst (get_account_mapping (JournalEditor.accounts journal) "dwight_id").

Definition dwight_id_to_account (journal : JournalEditor.t) : gmap string string :=
  snd (get_account_mapping (JournalEditor.accounts journal) "dwight_id").

(** The external ids of the given records that resolve to no ledger
    account. *)
Definition unmapped_ids {R} `{RawEntry R} (journal : JournalEditor.t) (entries : list R)
  : gset string :=
  list_to_set
    (raw_account <$>
       filter (fun raw => resolve_account (dwight_id_to_account journal) (raw_account raw) = None)
              entries).

(** The records whose account resolves, with the ledger account in
    place of the external id. *)
Definition mapped_entries {R} `{RawEntry R} (journal : JournalEditor.t) (entries : list R)
  : list R :=
  omap (fun raw => replace_account raw
                     <$> resolve_account (dwight_id_to_account journal) (raw_account raw))
       entries.

(** The proposal [r] is the balance assertion of [raw_balance] moved to
    the next day: both dates are the day after the snapshot's. *)
Definition dated_next_day (raw_balance : RawBalance.t) (r : ImportResult.t) : Prop :=
  exists date' balance,
    date_add_one_day (RawBalance.date raw_balance) = inr date' /\
    toordinal date' = toordinal (RawBalance.date raw_balance) + 1 /\
    ImportResult.date r = date' /\
    ImportResult.entries r = [DBalance balance] /\
    Balance.date balance = date'.

(** The recorded postings of the mapped accounts of a ledger, with
    their keys: what the engine matches the records against. *)
Definition ledger_postings (journal : JournalEditor.t) : list (MatchKey * LedgerPosting) :=
  JournalEditor.all_entries journal
    ≫= keyed_postings (dom (account_to_dwight_id journal)) _get_key_from_posting.

(** The proposal [prepare] makes of a balance, at the given date. *)
Definition balance_proposal (raw_balance : RawBalance.t) (date : Date) : ImportResult.t :=
  ImportResult.mk date (get_info raw_balance)
    [DBalance (Balance.mk (RawBalance.account raw_balance) date None
                          (RawBalance.amount raw_balance) None None)].

(** ** Example inputs *)

(** An export: two identical purchases on one day, an older row after
    them, a waived fee with a zero amount (and a date in another
    format), a blank line, and the balance row. *)
Definition example_export : list Row := [
  expected_field_names;
  ["2016-08-10"; "STARBUCKS"; "Food"; "4.90"; "USD"; "2.45"; "-2.45"];
  ["2016-08-09"; "Rent"; "Home"; "100.00"; "USD"; "-50.00"; "50.00"];
  [];
  ["2016-08-10"; "STARBUCKS"; "Food"; "4.90"; "USD"; "2.45"; "-2.45"];
  ["10/08/2016"; "Annual fee"; "Fees"; "0.00"; "USD"; "0.00"; "0.00"];
  ["2016-08-10"; "Total balance"; " "; " "; "EUR"; "-45.10"; "45.10"]
].

(** An export whose balance is zero. *)
Definition zero_balance_export : list Row := [
  expected_field_names;
  ["2016-08-10"; "Total balance"; " "; " "; "USD"; "0.00"; "0.00"]
].

(** An export with dates in another format. *)
Definition bad_date_export : list Row := [
  expected_field_names;
  ["10/08/2016"; "STARBUCKS"; "Food"; "4.90"; "USD"; "2.45"; "-2.45"];
  ["10/08/2016"; "Total balance"; " "; " "; "USD"; "-2.45"; "2.45"]
].

(** An export with nothing but the balance row. *)
Definition balance_only_export : list Row := [
  expected_field_names;
  ["2016-08-10"; "Total balance"; " "; " "; "USD"; "-45.10"; "45.10"]
].

Definition example_fs : FileSystem :=
  mkFileSystem
    (fun path => "/data/" +:+ path)
    (fun path =>
       if String.eqb path "/data/dwight.csv" then Some example_export
       else if String.eqb path "/data/zero_balance.csv" then Some zero_balance_export
       else if String.eqb path "/data/bad_date.csv" then Some bad_date_export
       else if String.eqb path "/data/balance_only.csv" then Some balance_only_export
       else None).

(** A ledger that maps the Dwight account and records nothing yet. *)
Definition mapped_journal : JournalEditor.t :=
  JournalEditor.mk
    [Open.mk "Assets:Dwight" (mkDate 1900 1 1) (Some [("dwight_id", MetaStr "Zhuohan Li")])]
    [].

(** A ledger with no account associated with a Dwight account. *)
Definition unmapped_journal : JournalEditor.t :=
  JournalEditor.mk [Open.mk "Assets:Checking" (mkDate 1900 1 1) None] [].

Definition starbucks_entry (line : nat) : DwightEntry.t :=
  DwightEntry.mk "Zhuohan Li" (mkDate 2016 8 10)
                 (mkAmount (mkDecimal true 245 (-2)) "USD") "STARBUCKS"
                 "/data/dwight.csv" line.

Definition rent_entry : DwightEntry.t :=
  DwightEntry.mk "Zhuohan Li" (mkDate 2016 8 9)
                 (mkAmount (mkDecimal false 5000 (-2)) "USD") "Rent"
                 "/data/dwight.csv" 2.

Definition example_balance : RawBalance.t :=
  RawBalance.mk "Zhuohan Li" (mkDate 2016 8 10)
                (mkAmount (mkDecimal false 4510 (-2)) "EUR") "/data/dwight.csv" 5.

Definition example_source : DwightSource.t :=
  DwightSource.mk "dwight.csv" (Some "dwight.csv")
                  [rent_entry; starbucks_entry 3; starbucks_entry 1] [example_balance].

(** What [DwightSource.__init__] makes of the export with nothing but
    the balance row. *)
Definition balance_only_source : DwightSource.t :=
  DwightSource.mk "balance_only.csv" (Some "balance_only.csv") []
    [RawBalance.mk "Zhuohan Li" (mkDate 2016 8 10)
                   (mkAmount (mkDecimal false 4510 (-2)) "USD") "/data/balance_only.csv" 1].

(** The first purchase as the ledger would record it once accepted. *)
Definition recorded_posting : Posting.t :=
  Posting.mk "Assets:Dwight" (mkAmount (mkDecimal true 245 (-2)) "USD") None None None
             (Some [("source_desc", MetaStr "STARBUCKS"); ("date", MetaDate (mkDate 2016 8 10))]).

Definition recorded_transaction : Transaction.t :=
  Transaction.mk None (mkDate 2016 8 10) FLAG_OKAY None "STARBUCKS" EMPTY_SET EMPTY_SET
    [recorded_posting;
     Posting.mk "Expenses:Coffee" (mkAmount (mkDecimal false 245 (-2)) "USD")
                None None None None].

(** What the first run proposes for [example_source] against
    [mapped_journal]: the drafts of the three transactions, then the
    balance assertion. *)
Definition example_first_run : SourceResults.t :=
  SourceResults.mk
    ((_make_import_result
        <$> [replace_account rent_entry "Assets:Dwight";
             replace_account (starbucks_entry 3) "Assets:Dwight";
             replace_account (starbucks_entry 1) "Assets:Dwight"])
     ++ [balance_proposal (replace_account example_balance "Assets:Dwight") (mkDate 2016 8 11)])
    [] [].





(** ** Notions of the further properties *)

(** The characters of an amount written plainly: the digits, the
    decimal point, the signs, and the separators the conversion
    drops. *)
Definition plain_number_char (c : ascii) : bool :=
  is_digit c || Ascii.eqb c "." || Ascii.eqb c "," || Ascii.eqb c " "
  || Ascii.eqb c "-" || Ascii.eqb c "+" || Ascii.eqb c "_".

(** An amount written plainly, no longer than a field the csv module
    reads (131072 characters): it names no special value, has no
    exponent part, and the exponent of its decimal is far from the
    bounds of the context. *)
Definition plain_number (s : string) : bool :=
  string_forallb plain_number_char s && (N.of_nat (String.length s) <=? 131072)%N.

Definition is_ascii_string (s : string) : bool :=
  string_forallb (fun c => (nat_of_ascii c <? 128)%nat) s.

(** A row whose amount, if it has one, is written plainly and whose
    date, if it has one, is in ASCII: the values on which [D] and
    [strptime_date] are modelled in full. *)
Definition plain_row (row : Row) : bool :=
  from_option plain_number true (row_get row "Zhanghao Wu")
  && from_option is_ascii_string true (row_get row "Date").

(** A row that is plain if it is a balance row. *)
Definition plain_balance_row (row : Row) : bool :=
  negb (bool_decide (row_get row "Description" = Some "Total balance")) || plain_row row.

(** A row [load_transactions] gets through: its amount is read; then
    the row is skipped, or its date is read. *)
Definition transaction_row_loads (row : Row) : Prop :=
  exists number,
    signed_number (row_get row "Zhanghao Wu") = inr number /\
    (Decimal_eqb number ZERO = true \/
     row_get row "Description" = Some "Total balance" \/
     exists date, row_date row = inr date).

(** A row [load_balances] gets through: it is skipped, or its date and
    then its amount are read. *)
Definition balance_row_loads (row : Row) : Prop :=
  row_get row "Description" <> Some "Total balance" \/
  exists date number,
    row_date row = inr date /\
    signed_number (row_get row "Zhanghao Wu") = inr number.

(** Two rows with the same values in the columns [load_transactions]
    reads. *)
Definition same_transaction_columns (row row' : Row) : Prop :=
  row_get row "Date" = row_get row' "Date" /\
  row_get row "Description" = row_get row' "Description" /\
  row_get row "Zhanghao Wu" = row_get row' "Zhanghao Wu".

(** An export with two balance rows, the later date first, between
    rows that [load_balances] does not read. *)
Definition balances_export : list Row := [
  expected_field_names;
  ["2016-09-01"; "Total balance"; " "; " "; "USD"; "-45.10"; "45.10"];
  ["not a date"; "STARBUCKS"; "Food"; "4.90"; "USD"; "2.45"; "not a number"];
  ["2016-08-01"; "Total balance"; " "; " "; "USD"; "-40.00"; "40.00"]
].

(** [example_export] with other costs, currencies and shares of the
    first person. *)
Definition other_columns_export : list Row := [
  expected_field_names;
  ["2016-08-10"; "STARBUCKS"; "Coffee"; "9.80"; "EUR"; "7.35"; "-2.45"];
  ["2016-08-09"; "Rent"; "Home"; "150.00"; "GBP"; "-100.00"; "50.00"];
  [];
  ["2016-08-10"; "STARBUCKS"; "Food"; "4.90"; "USD"; "2.45"; "-2.45"; "extra"];
  ["10/08/2016"; "Annual fee"; "Fees"; "0.00"; "USD"; "0.00"; "0.00"];
  ["2016-08-10"; "Total balance"; " "; " "; "JPY"; "-45.10"; "45.10"]
].

(** An export of another service: good rows under another header. *)
Definition other_header_export : list Row := [
  ["Date"; "Description"; "Amount"];
  ["2016-08-10"; "STARBUCKS"; "-2.45"]
].

Definition more_fs : FileSystem :=
  mkFileSystem
    (fun path => "/data/" +:+ path)
    (fun path =>
       if String.eqb path "/data/dwight.csv" then Some other_columns_export
       else if String.eqb path "/data/balances.csv" then Some balances_export
       else if String.eqb path "/data/mint.csv" then Some other_header_export
       else if String.eqb path "/data/empty.csv" then Some []
       else None).

Definition september_balance : RawBalance.t :=
  RawBalance.mk "Zhuohan Li" (mkDate 2016 9 1)
                (mkAmount (mkDecimal false 4510 (-2)) "USD") "/data/balances.csv" 1.

Definition august_balance : RawBalance.t :=
  RawBalance.mk "Zhuohan Li" (mkDate 2016 8 1)
                (mkAmount (mkDecimal false 4000 (-2)) "USD") "/data/balances.csv" 3.

(** A mapping with one id associated, one associated with the empty
    account name, and the records of three ids against it. *)
Definition example_mapping : gmap string string :=
  {[ "Zhuohan Li" := "Assets:Dwight"; "Nobody" := "" ]}.

Definition three_ids_entries : list DwightEntry.t :=
  [rent_entry;
   DwightEntry.mk "Nobody" (mkDate 2016 8 9) (mkAmount (mkDecimal false 100 (-2)) "USD")
                  "Tea" "/data/dwight.csv" 7;
   DwightEntry.mk "Somebody" (mkDate 2016 8 9) (mkAmount (mkDecimal false 200 (-2)) "USD")
                  "Cake" "/data/dwight.csv" 8].

(** What [Decimal_of_string] makes of a string once it is stripped and
    its sign is read: the digits, the fraction and the exponent. *)
Definition parse_unsigned (neg : bool) (s : string) : option Decimal :=
  let '(intpart, s) := span_digits s in
  let '(fracpart, s) :=
    match s with
    | String "." s' => span_digits s'
    | _ => (EmptyString, s)
    end in
  if String.eqb intpart "" && String.eqb fracpart "" then None
  else
    e ← read_exponent s;
    Some (mkDecimal neg (digits_value (String.append intpart fracpart))
                    (e - Z.of_nat (String.length fracpart))).

(** The decimals the default decimal context holds as they are (28
    significant digits, exponents within its range): on these the
    unary minus only switches the sign. *)
Definition within_context (d : Decimal) : Prop :=
  (dec_int d < 10 ^ 28)%N /\ -1000026 <= dec_exp d <= 999972.

(** * Properties *)

(** ** The exception monad *)

Lemma bind_inr {A B} (m : exn + A) (f : A -> exn + B) (y : B) :
  m ≫= f = inr y <-> exists x, m = inr x /\ f x = inr y.
Proof.
  destruct m as [e|x]; simpl; split.
  - discriminate.
  - intros (x & Hx & _). discriminate.
  - eauto.
  - intros (x' & Hx & Hf). congruence.
Qed.

Lemma try_except_inr {A} (m : exn + A) h (y : A) :
  try_except m h = inr y <-> m = inr y.
Proof. destruct m; simpl; split; congruence. Qed.

Lemma try_except_inl {A} (m : exn + A) h e :
  try_except m h = inl e -> exists cause, m = inl cause /\ e = h cause.
Proof. destruct m; simpl; intros; [eexists; split; [reflexivity | congruence] | discriminate]. Qed.

Ltac inv_bind H :=
  repeat match type of H with
  | _ ≫= _ = inr _ =>
      let x := fresh "x" in let Hx := fresh "Hx" in
      apply bind_inr in H as (x & Hx & H)
  | mret _ = inr _ => injection H as H
  | inr _ = inr _ => injection H as H
  | raise _ = inr _ => discriminate H
  | inl _ = inr _ => discriminate H
  end.

(** ** Dates *)

Ltac date_bools :=
  repeat match goal with
  | d : Date |- _ => destruct d
  end;
  unfold date_leb, date_eqb in *; simpl in *;
  rewrite ?orb_true_iff, ?andb_true_iff, ?orb_false_iff, ?andb_false_iff,
    ?Z.ltb_lt, ?Z.eqb_eq, ?Z.leb_le, ?Z.ltb_ge, ?Z.eqb_neq, ?Z.leb_gt in *.

Lemma date_eqb_eq (a b : Date) : date_eqb a b = true <-> a = b.
Proof.
  split.
  - date_bools. intros [[-> ->] ->]. reflexivity.
  - intros ->. date_bools. auto.
Qed.

Lemma date_eqb_refl (a : Date) : date_eqb a a = true.
Proof. by apply date_eqb_eq. Qed.

Lemma date_leb_refl (a : Date) : date_leb a a = true.
Proof. date_bools. lia. Qed.

Lemma date_leb_trans (a b c : Date) :
  date_leb a b = true -> date_leb b c = true -> date_leb a c = true.
Proof. date_bools. lia. Qed.

Lemma date_leb_total (a b : Date) : date_leb a b = false -> date_leb b a = true.
Proof. date_bools. lia. Qed.

Lemma date_leb_false_neq (a b : Date) : date_leb a b = false -> a <> b.
Proof. intros H ->. by rewrite date_leb_refl in H. Qed.

(** ** The loop over the rows *)

Section ForEnumerate.
Context {A : Type} (body : nat -> Row -> exn + option A).

(** A record of the result comes from a row, at its index. *)
Lemma for_enumerate_elem rows : forall line_i entries e,
  for_enumerate body line_i rows = inr entries ->
  e ∈ entries ->
  exists (i : nat) row, rows !! i = Some row /\ body (line_i + i)%nat row = inr (Some e).
Proof.
  induction rows as [|row rows IH]; intros line_i entries e H He; simpl in H.
  - inv_bind H. subst. by apply elem_of_nil in He.
  - inv_bind H. subst entries.
    assert (e ∈ x0 \/ x = Some e) as [Hin | ->].
    { destruct x; [apply elem_of_cons in He as [->|]|]; auto. }
    + destruct (IH _ _ _ Hx0 Hin) as (i & r & Hi & Hb).
      exists (S i), r. split; [done|]. by replace (line_i + S i)%nat with (S line_i + i)%nat by lia.
    + exists O, row. split; [done|]. by rewrite Nat.add_0_r.
Qed.

(** When the loop ends, the body raised on no row, and what it made
    of a row is in the result. *)
Lemma for_enumerate_row rows : forall line_i entries (i : nat) row,
  for_enumerate body line_i rows = inr entries ->
  rows !! i = Some row ->
  exists r, body (line_i + i)%nat row = inr r /\ forall e, r = Some e -> e ∈ entries.
Proof.
  induction rows as [|row0 rows IH]; intros line_i entries i row H Hi; simpl in H.
  - discriminate.
  - inv_bind H. subst entries. destruct i as [|i]; simpl in Hi.
    + injection Hi as ->. exists x. rewrite Nat.add_0_r. split; [done|].
      intros e ->. apply elem_of_cons; auto.
    + destruct (IH _ _ _ _ Hx0 Hi) as (r & Hb & Hr).
      exists r. replace (line_i + S i)%nat with (S line_i + i)%nat by lia.
      split; [done|]. intros e He. destruct x; [apply elem_of_cons; right|]; auto.
Qed.

(** The first exception of the body is the loop's. *)
Lemma for_enumerate_inl rows : forall line_i e,
  for_enumerate body line_i rows = inl e ->
  exists (i : nat) row, rows !! i = Some row /\ body (line_i + i)%nat row = inl e.
Proof.
  induction rows as [|row rows IH]; intros line_i e H; simpl in H; [discriminate|].
  destruct (body line_i row) as [e0|r] eqn:Hb; simpl in H.
  - injection H as <-. exists O, row. by rewrite Nat.add_0_r.
  - destruct (for_enumerate body (S line_i) rows) as [e1|es] eqn:Hl; simpl in H; [|discriminate].
    injection H as <-. destruct (IH _ _ Hl) as (i & r' & Hi & Hb').
    exists (S i), r'. split; [done|]. by replace (line_i + S i)%nat with (S line_i + i)%nat by lia.
Qed.

(** The records are in the order of their rows. *)
Lemma for_enumerate_lines (line : A -> nat) rows :
  (forall i row e, body i row = inr (Some e) -> line e = (i + 1)%nat) ->
  forall line_i entries,
  for_enumerate body line_i rows = inr entries ->
  Forall (fun e => (line_i < line e)%nat) entries /\
  StronglySorted (fun a b => (line a < line b)%nat) entries.
Proof.
  intros Hline. induction rows as [|row rows IH]; intros line_i entries H; simpl in H.
  - inv_bind H. subst. split; constructor.
  - inv_bind H. subst entries. destruct (IH _ _ Hx0) as [Hlt Hs].
    assert (Forall (fun e => (line_i < line e)%nat) x0) as Hlt'.
    { eapply Forall_impl; [exact Hlt|]. simpl. intros; lia. }
    destruct x as [e|]; [|done].
    apply Hline in Hx. split.
    + constructor; [lia | done].
    + constructor; [done|]. eapply Forall_impl; [exact Hlt|]. simpl. intros; lia.
Qed.
End ForEnumerate.

(** ** Lists *)

Lemma StronglySorted_lookup {A} (R : A -> A -> Prop) (l : list A) :
  StronglySorted R l ->
  forall (i j : nat) a b, (i < j)%nat -> l !! i = Some a -> l !! j = Some b -> R a b.
Proof.
  induction 1 as [|x l Hs IH Hx]; intros i j a b Hij Hi Hj.
  - discriminate.
  - destruct j as [|j]; [lia|]. simpl in Hj. destruct i as [|i]; simpl in Hi.
    + injection Hi as <-. rewrite Forall_forall in Hx. apply Hx.
      eapply list_elem_of_lookup_2; eauto.
    + eapply (IH i j); eauto. lia.
Qed.

Lemma StronglySorted_snoc {A} (R : A -> A -> Prop) (l : list A) (x : A) :
  StronglySorted R l -> Forall (fun y => R y x) l -> StronglySorted R (l ++ [x]).
Proof.
  induction 1 as [|y l Hs IH Hy]; intros Hx; simpl.
  - repeat constructor.
  - inversion_clear Hx. constructor; [auto|].
    apply Forall_app; split; [done | by constructor].
Qed.

Lemma StronglySorted_rev {A} (R : A -> A -> Prop) (l : list A) :
  StronglySorted R l -> StronglySorted (fun a b => R b a) (rev l).
Proof.
  induction 1 as [|x l Hs IH Hx]; simpl; [constructor|].
  apply StronglySorted_snoc; [done|]. rewrite Forall_forall in *.
  intros y Hy. apply Hx. apply list_elem_of_In, in_rev. by apply list_elem_of_In.
Qed.

(** ** The stable sort by date *)

Lemma insert_by_date_Permutation x l : Permutation (insert_by_date x l) (x :: l).
Proof.
  induction l as [|y l IH]; simpl; [done|].
  destruct (date_leb _ _); [done|]. rewrite IH. apply perm_swap.
Qed.

Lemma sort_by_date_Permutation l : Permutation (sort_by_date l) l.
Proof.
  induction l as [|x l IH]; simpl; [done|].
  rewrite insert_by_date_Permutation. by constructor.
Qed.

Lemma insert_by_date_sorted x l :
  StronglySorted date_then_later_row l ->
  Forall (fun y => (DwightEntry.line y < DwightEntry.line x)%nat) l ->
  StronglySorted date_then_later_row (insert_by_date x l).
Proof.
  induction 1 as [|y l Hs IH Hy]; intros Hx; simpl.
  - repeat constructor.
  - inversion_clear Hx as [|? ? Hyx Hlx].
    destruct (date_leb (DwightEntry.date x) (DwightEntry.date y)) eqn:Hle.
    + constructor; [by constructor|].
      constructor; [split; auto|].
      rewrite Forall_forall in *. intros z Hz. split.
      * eapply date_leb_trans; [exact Hle|]. by apply Hy.
      * intros _. by apply Hlx.
    + constructor; [auto|].
      eapply Permutation_Forall; [symmetry; apply insert_by_date_Permutation|].
      constructor; [|done]. split.
      * by apply date_leb_total.
      * intros Heq. apply date_leb_false_neq in Hle. congruence.
Qed.

(** A list in descending row order is sorted into ascending dates with
    the later row first among equal dates: the sort is stable. *)
Lemma sort_by_date_sorted l :
  StronglySorted (fun a b => (DwightEntry.line b < DwightEntry.line a)%nat) l ->
  StronglySorted date_then_later_row (sort_by_date l).
Proof.
  induction 1 as [|x l Hs IH Hx]; simpl; [constructor|].
  apply insert_by_date_sorted; [done|].
  eapply Permutation_Forall; [symmetry; apply sort_by_date_Permutation | done].
Qed.

Lemma elem_of_sort_by_date_rev e l : e ∈ sort_by_date (rev l) <-> e ∈ l.
Proof.
  rewrite (sort_by_date_Permutation (rev l)). rewrite <- (Permutation_rev l). done.
Qed.

(** ** The rows *)

Lemma transaction_of_row_Some filename currency line_i row e :
  transaction_of_row filename currency line_i row = inr (Some e) ->
  exists number date desc,
    signed_number (row_get row "Zhanghao Wu") = inr number /\
    Decimal_eqb number ZERO = false /\
    row_get row "Description" = Some desc /\ desc <> "Total balance" /\
    row_date row = inr date /\
    e = DwightEntry.mk "Zhuohan Li" date (mkAmount number currency) desc
                       filename (line_i + 1).
Proof.
  unfold transaction_of_row. intros H. inv_bind H.
  destruct (Decimal_eqb x ZERO) eqn:Hz; simpl in H; [discriminate|].
  case_bool_decide as Hd; simpl in H; [discriminate|].
  inv_bind H. destruct (row_get row "Description") as [desc|] eqn:Hdesc; [|discriminate].
  inv_bind H. exists x, x0, desc. repeat split; auto. congruence.
Qed.

Lemma transaction_of_row_zero filename currency line_i row number :
  signed_number (row_get row "Zhanghao Wu") = inr number ->
  Decimal_eqb number ZERO = true ->
  transaction_of_row filename currency line_i row = inr None.
Proof. unfold transaction_of_row. intros -> Hz. simpl. by rewrite Hz. Qed.

Lemma balance_of_row_Some filename account line_i row b :
  balance_of_row filename account line_i row = inr (Some b) ->
  row_get row "Description" = Some "Total balance" /\
  exists date number cur,
    row_date row = inr date /\
    signed_number (row_get row "Zhanghao Wu") = inr number /\
    row_get row "Currency" = Some cur /\
    b = RawBalance.mk account date (mkAmount number cur) filename (line_i + 1).
Proof.
  unfold balance_of_row. intros H.
  case_bool_decide as Hd; [discriminate|].
  split; [by destruct (decide (row_get row "Description" = Some "Total balance"))|].
  inv_bind H. destruct (row_get row "Currency") as [cur|] eqn:Hc; [|discriminate].
  inv_bind H. eauto 10.
Qed.

Lemma balance_of_row_None filename account line_i row :
  balance_of_row filename account line_i row = inr None ->
  row_get row "Description" <> Some "Total balance".
Proof.
  unfold balance_of_row. case_bool_decide as Hd; [done|].
  intros H. exfalso.
  destruct (row_date row); simpl in H; [discriminate|].
  destruct (signed_number _); simpl in H; [discriminate|].
  destruct (row_get row "Currency"); discriminate.
Qed.

(** A row with a value in its last column has one in every column:
    the branches of the two bodies for a missing description or
    currency are never taken. *)
Lemma row_get_last_column row number key :
  signed_number (row_get row "Zhanghao Wu") = inr number ->
  key ∈ expected_field_names ->
  is_Some (row_get row key).
Proof.
  intros Hn Hkey. destruct (row_get row "Zhanghao Wu") as [v|] eqn:Hv; [|discriminate].
  unfold row_get in *. simpl in Hv. apply lookup_lt_Some in Hv.
  unfold expected_field_names in Hkey.
  repeat (apply elem_of_cons in Hkey as [-> | Hkey];
          [simpl; apply lookup_lt_is_Some; lia |]).
  by apply elem_of_nil in Hkey.
Qed.

(** The bodies of the two loops do not read the column "Zhuohan Li" of
    the row: the account of a record is the constant. *)
Lemma account_column_unread filename currency account line_i (row : Row) v :
  transaction_of_row filename currency line_i (<[5%nat := v]> row)
    = transaction_of_row filename currency line_i row /\
  balance_of_row filename account line_i (<[5%nat := v]> row)
    = balance_of_row filename account line_i row.
Proof.
  assert (forall key, key <> "Zhuohan Li" -> row_get (<[5%nat := v]> row) key = row_get row key)
    as Hget.
  { intros key Hkey. unfold row_get.
    destruct (index_of key expected_field_names) as [i|] eqn:Hi; simpl; [|reflexivity].
    apply list_lookup_insert_ne. intros <-. apply Hkey.
    unfold expected_field_names in Hi. simpl in Hi.
    repeat match type of Hi with
           | context [String.eqb key ?n] =>
               destruct (String.eqb_spec key n) as [->|_]; simpl in Hi
           end; try discriminate Hi; reflexivity. }
  unfold transaction_of_row, balance_of_row, row_date. rewrite !Hget by discriminate. done.
Qed.

(** ** What a successful load went through *)

Lemma load_transactions_inr fs filename currency entries :
  load_transactions fs filename currency = inr entries ->
  exists records entries0,
    open_csv fs (abspath fs filename) = Some records /\
    DictReader_fieldnames records = Some expected_field_names /\
    for_enumerate (transaction_of_row (abspath fs filename) (default "USD" currency)) 0
                  (DictReader_rows records) = inr entries0 /\
    entries = sort_by_date (rev entries0).
Proof.
  unfold load_transactions. intros H. apply try_except_inr in H. inv_bind H.
  unfold open_file in Hx. destruct (open_csv fs _) as [records|] eqn:Ho; [|discriminate].
  injection Hx as <-. unfold check_field_names in Hx0.
  destruct (decide _) as [Hf|]; [|discriminate]. eauto 10.
Qed.

Lemma load_balances_inr fs filename balances :
  load_balances fs filename = inr balances ->
  exists records,
    open_csv fs (abspath fs filename) = Some records /\
    DictReader_fieldnames records = Some expected_field_names /\
    for_enumerate (balance_of_row (abspath fs filename) "Zhuohan Li") 0
                  (DictReader_rows records) = inr balances.
Proof.
  unfold load_balances. intros H. inv_bind H.
  unfold open_file in Hx. destruct (open_csv fs _) as [records|] eqn:Ho; [|discriminate].
  injection Hx as <-. unfold check_field_names in Hx0.
  destruct (decide _) as [Hf|]; [|discriminate]. eauto 10.
Qed.

(** A record of [load_transactions] comes from the row its [line]
    counts, and that row was not skipped. *)
Lemma load_transactions_elem fs filename currency entries e :
  load_transactions fs filename currency = inr entries ->
  e ∈ entries ->
  exists records (i : nat) row,
    open_csv fs (abspath fs filename) = Some records /\
    DictReader_rows records !! i = Some row /\
    transaction_of_row (abspath fs filename) (default "USD" currency) i row = inr (Some e) /\
    DwightEntry.line e = (i + 1)%nat.
Proof.
  intros H He. apply load_transactions_inr in H as (records & entries0 & Ho & _ & Hl & ->).
  apply (proj1 (elem_of_sort_by_date_rev _ _)) in He.
  destruct (for_enumerate_elem _ _ _ _ _ Hl He) as (i & row & Hi & Hb). simpl in Hb.
  exists records, i, row. repeat split; auto.
  apply transaction_of_row_Some in Hb as (? & ? & ? & _ & _ & _ & _ & _ & ->). done.
Qed.

Lemma load_balances_elem fs filename balances b :
  load_balances fs filename = inr balances ->
  b ∈ balances ->
  exists records (i : nat) row,
    open_csv fs (abspath fs filename) = Some records /\
    DictReader_rows records !! i = Some row /\
    balance_of_row (abspath fs filename) "Zhuohan Li" i row = inr (Some b) /\
    RawBalance.line b = (i + 1)%nat.
Proof.
  intros H Hb. apply load_balances_inr in H as (records & Ho & _ & Hl).
  destruct (for_enumerate_elem _ _ _ _ _ Hl Hb) as (i & row & Hi & Hr). simpl in Hr.
  exists records, i, row. repeat split; auto.
  apply balance_of_row_Some in Hr as (_ & ? & ? & ? & _ & _ & _ & ->). done.
Qed.

(** C2.  The list [load_transactions] returns is sorted ascending by
    date, and two of its records of the same date are in the reverse
    of the order of their rows in the file: the one that comes first
    has the greater [line], and the [line] of a record is the position
    of the row it was made from. *)
Theorem load_transactions_sorted fs filename currency entries :
  load_transactions fs filename currency = inr entries ->
  StronglySorted (fun a b => date_leb (DwightEntry.date a) (DwightEntry.date b) = true) entries /\
  (forall (i j : nat) a b,
      (i < j)%nat -> entries !! i = Some a -> entries !! j = Some b ->
      DwightEntry.date a = DwightEntry.date b ->
      (DwightEntry.line b < DwightEntry.line a)%nat) /\
  (forall e, e ∈ entries ->
      exists records row,
        open_csv fs (abspath fs filename) = Some records /\
        DictReader_rows records !! (DwightEntry.line e - 1)%nat = Some row /\
        transaction_of_row (abspath fs filename) (default "USD" currency)
                           (DwightEntry.line e - 1) row = inr (Some e)).
Proof.
  intros H.
  assert (StronglySorted date_then_later_row entries) as Hs.
  { apply load_transactions_inr in H as (records & entries0 & _ & _ & Hl & ->).
    apply sort_by_date_sorted.
    apply (StronglySorted_rev (fun a b => (DwightEntry.line a < DwightEntry.line b)%nat)).
    eapply (for_enumerate_lines _ DwightEntry.line); [|exact Hl].
    intros i row e He.
    apply transaction_of_row_Some in He as (? & ? & ? & _ & _ & _ & _ & _ & ->). done. }
  split; [|split].
  - clear H. induction Hs as [|x l Hs IH Hx]; constructor; [done|].
    eapply Forall_impl; [exact Hx|]. by intros b [Hb _].
  - intros i j a b Hij Hi Hj Hd.
    by destruct (StronglySorted_lookup _ _ Hs i j a b Hij Hi Hj) as [_ Hl]; auto.
  - intros e He.
    destruct (load_transactions_elem _ _ _ _ _ H He) as (records & i & row & Ho & Hi & Hb & Hl).
    exists records, row. rewrite Hl. replace (i + 1 - 1)%nat with i by lia. done.
Qed.

Lemma load_transactions_sorted_witness :
  load_transactions example_fs "dwight.csv" None
    = inr [rent_entry; starbucks_entry 3; starbucks_entry 1] /\
  (forall (i j : nat) a b,
      (i < j)%nat ->
      [rent_entry; starbucks_entry 3; starbucks_entry 1] !! i = Some a ->
      [rent_entry; starbucks_entry 3; starbucks_entry 1] !! j = Some b ->
      DwightEntry.date a = DwightEntry.date b ->
      (DwightEntry.line b < DwightEntry.line a)%nat).
Proof.
  split; [reflexivity|].
  apply (load_transactions_sorted example_fs "dwight.csv" None). reflexivity.
Defined.

(** C3, as the code has it.  A row whose amount parses to zero is in
    no record of [load_transactions], whatever its description.
    [load_balances] does not look at the amount: when it returns, a
    row is in one of its records exactly when its description is
    'Total balance'. *)
Theorem zero_amount_rows_skipped fs filename records (i : nat) row :
  open_csv fs (abspath fs filename) = Some records ->
  DictReader_rows records !! i = Some row ->
  (forall currency entries number,
      load_transactions fs filename currency = inr entries ->
      signed_number (row_get row "Zhanghao Wu") = inr number ->
      Decimal_eqb number ZERO = true ->
      forall e, e ∈ entries -> DwightEntry.line e <> (i + 1)%nat) /\
  (forall balances,
      load_balances fs filename = inr balances ->
      (exists b, b ∈ balances /\ RawBalance.line b = (i + 1)%nat) <->
      row_get row "Description" = Some "Total balance").
Proof.
  intros Ho Hi. split.
  - intros currency entries number H Hn Hz e He Hl.
    destruct (load_transactions_elem _ _ _ _ _ H He) as (records' & i' & row' & Ho' & Hi' & Hb & Hl').
    assert (i' = i) as -> by lia. assert (records' = records) as -> by congruence.
    assert (row' = row) as -> by congruence.
    rewrite (transaction_of_row_zero _ _ _ _ _ Hn Hz) in Hb. discriminate.
  - intros balances H. split.
    + intros (b & Hb & Hl).
      destruct (load_balances_elem _ _ _ _ H Hb) as (records' & i' & row' & Ho' & Hi' & Hr & Hl').
      assert (i' = i) as -> by lia. assert (records' = records) as -> by congruence.
      assert (row' = row) as -> by congruence.
      by apply balance_of_row_Some in Hr as [? _].
    + intros Hd. apply load_balances_inr in H as (records' & Ho' & _ & Hl).
      assert (records' = records) as -> by congruence.
      destruct (for_enumerate_row _ _ _ _ _ _ Hl Hi) as (r & Hr & Hin). simpl in Hr.
      destruct r as [b|].
      * exists b. split; [by apply Hin|].
        by apply balance_of_row_Some in Hr as (_ & ? & ? & ? & _ & _ & _ & ->).
      * by apply balance_of_row_None in Hr.
Qed.

Lemma zero_amount_rows_skipped_witness :
  Forall (fun e => DwightEntry.line e <> 4%nat)
         [rent_entry; starbucks_entry 3; starbucks_entry 1].
Proof.
  apply Forall_forall.
  exact (proj1 (zero_amount_rows_skipped example_fs "dwight.csv" example_export 3
                  ["10/08/2016"; "Annual fee"; "Fees"; "0.00"; "USD"; "0.00"; "0.00"]
                  eq_refl eq_refl)
               None _ (mkDecimal false 0 (-2)) eq_refl eq_refl eq_refl).
Defined.

(** C3 as stated fails on [load_balances]: the balance row of amount
    0.00 is row 1 of the export, its amount parses to zero, and it is
    loaded. *)
Lemma zero_amount_balance_loaded :
  DictReader_rows zero_balance_export !! 0%nat
    = Some ["2016-08-10"; "Total balance"; " "; " "; "USD"; "0.00"; "0.00"] /\
  signed_number
    (row_get ["2016-08-10"; "Total balance"; " "; " "; "USD"; "0.00"; "0.00"] "Zhanghao Wu")
    = inr (mkDecimal false 0 (-2)) /\
  Decimal_eqb (mkDecimal false 0 (-2)) ZERO = true /\
  load_balances example_fs "zero_balance.csv"
    = inr [RawBalance.mk "Zhuohan Li" (mkDate 2016 8 10)
                         (mkAmount (mkDecimal false 0 (-2)) "USD")
                         "/data/zero_balance.csv" 1].
Proof. repeat split. Qed.

(** ** Decimals and keys *)

Lemma Decimal_eqb_refl (d : Decimal) : Decimal_eqb d d = true.
Proof. unfold Decimal_eqb. apply Z.eqb_refl. Qed.

Lemma count_digits_le (fuel : nat) : forall (n : N) (l : nat),
  (1 <= l)%nat -> (n < 10 ^ N.of_nat l)%N -> count_digits fuel n <= Z.of_nat l.
Proof.
  induction fuel as [|fuel IH]; intros n l Hl Hn; simpl; [lia|].
  destruct (N.ltb_spec n 10) as [H10|H10]; [lia|].
  destruct l as [|[|l]]; [lia| |].
  - change (10 ^ N.of_nat 1)%N with 10%N in Hn. lia.
  - assert (Hdiv : (n / 10 < 10 ^ N.of_nat (S l))%N).
    { apply N.Div0.div_lt_upper_bound.
      replace (N.of_nat (S (S l))) with (N.succ (N.of_nat (S l))) in Hn by lia.
      by rewrite N.pow_succ_r' in Hn. }
    specialize (IH (n / 10)%N (S l) ltac:(lia) Hdiv). lia.
Qed.

Lemma decimal_length_le (n : N) : (n < 10 ^ 28)%N -> decimal_length n <= 28.
Proof. intros Hn. apply (count_digits_le _ n 28); [lia | exact Hn]. Qed.

Lemma Decimal_fix_within (d : Decimal) : within_context d -> Decimal_fix d = d.
Proof.
  intros [Hint Hexp]. unfold Decimal_fix.
  destruct (N.eqb_spec (dec_int d) 0) as [Hz|Hz].
  - destruct d as [s i e]; simpl in *. subst i. f_equal.
    unfold context_Etiny, context_Emin, context_prec, context_Emax. lia.
  - pose proof (decimal_length_le _ Hint) as Hlen.
    destruct (Z.ltb_spec (dec_exp d)
                (Z.max (decimal_length (dec_int d) + dec_exp d - context_prec) context_Etiny))
      as [Hlt|Hge]; [|reflexivity].
    unfold context_Etiny, context_Emin, context_prec in Hlt. lia.
Qed.

Lemma Decimal_neg_within (d : Decimal) :
  within_context d ->
  Decimal_neg d = if (dec_int d =? 0)%N then mkDecimal false (dec_int d) (dec_exp d)
                  else mkDecimal (negb (dec_sign d)) (dec_int d) (dec_exp d).
Proof.
  intros H. unfold Decimal_neg. apply Decimal_fix_within.
  by destruct (dec_int d =? 0)%N.
Qed.

Lemma dec_signed_neg (d : Decimal) :
  within_context d -> dec_signed (Decimal_neg d) = - dec_signed d.
Proof.
  intros H. rewrite (Decimal_neg_within _ H).
  unfold dec_signed. destruct (N.eqb_spec (dec_int d) 0) as [Hz|Hz]; simpl.
  - rewrite Hz. by destruct (dec_sign d).
  - destruct (dec_sign d); simpl; lia.
Qed.

Lemma dec_exp_neg (d : Decimal) : within_context d -> dec_exp (Decimal_neg d) = dec_exp d.
Proof. intros H. rewrite (Decimal_neg_within _ H). by destruct (dec_int d =? 0)%N. Qed.




Lemma Amount_eqb_refl (a : Amount) : Amount_eqb a a = true.
Proof. unfold Amount_eqb. by rewrite Decimal_eqb_refl, String.eqb_refl. Qed.

Lemma MatchKey_eqb_refl (k : MatchKey) : MatchKey_eqb k k = true.
Proof.
  destruct k as [[[a d] m] s]. simpl.
  by rewrite !String.eqb_refl, date_eqb_refl, Amount_eqb_refl.
Qed.

(** ** Claims on the loaders *)

(** A failure of [load_transactions] is the one wrapped exception, with
    the path of the file. *)
Lemma load_transactions_error_carries_path fs filename currency e :
  load_transactions fs filename currency = inl e ->
  exn_filename e = Some (abspath fs filename).
Proof.
  unfold load_transactions. intros H.
  apply try_except_inl in H as (cause & _ & ->). reflexivity.
Qed.

(** A failure of [load_balances] is the exception as it was raised: one
    of these, none of which has the path. *)
Lemma load_balances_error_unwrapped fs filename e :
  load_balances fs filename = inl e ->
  exn_filename e = None.
Proof.
  unfold load_balances, open_file, check_field_names. intros H.
  destruct (open_csv fs _) as [records|]; simpl in H; [|by injection H as <-].
  destruct (decide _); simpl in H; [|by injection H as <-].
  apply for_enumerate_inl in H as (i & row & _ & H).
  unfold balance_of_row in H. case_bool_decide; [discriminate|].
  destruct (row_date row) as [e1|d] eqn:Hd; simpl in H.
  { injection H as <-. unfold row_date in Hd.
    by apply try_except_inl in Hd as (cause & _ & ->). }
  destruct (signed_number _) as [e2|n] eqn:Hn; simpl in H.
  { injection H as <-. unfold signed_number, D, raise in Hn.
    repeat match type of Hn with
           | context [match ?x with _ => _ end] => destruct x; simpl in Hn; try discriminate
           end; by injection Hn as <-. }
  destruct (row_get row "Currency"); [discriminate|]. by injection H as <-.
Qed.

(** C4.  On an export whose dates are in another format,
    [load_transactions] fails with the wrapped exception that carries
    the path, and [load_balances] fails with the exception of the date
    as raised, which carries none. *)
Theorem load_balances_error_has_no_path :
  load_transactions example_fs "bad_date.csv" None
    = inl (RuntimeError_incorrect_format "/data/bad_date.csv"
             (RuntimeError_invalid_date (Some "10/08/2016") ValueError)) /\
  load_balances example_fs "bad_date.csv"
    = inl (RuntimeError_invalid_date (Some "10/08/2016") ValueError) /\
  exn_filename (RuntimeError_invalid_date (Some "10/08/2016") ValueError) = None.
Proof. repeat split. Qed.

(** C9, as the code has it.  Every record of [load_transactions] has
    the configured currency on its amount, 'USD' when none is given.
    Every record of [load_balances] has the currency of the Currency
    column of its own row. *)
Theorem loaded_currency fs filename :
  (forall configured entries,
      load_transactions fs filename configured = inr entries ->
      Forall (fun e => currency (DwightEntry.amount e) = default "USD" configured) entries) /\
  (forall balances b,
      load_balances fs filename = inr balances ->
      b ∈ balances ->
      exists records row,
        open_csv fs (abspath fs filename) = Some records /\
        DictReader_rows records !! (RawBalance.line b - 1)%nat = Some row /\
        row_get row "Currency" = Some (currency (RawBalance.amount b))).
Proof.
  split.
  - intros configured entries H. apply Forall_forall. intros e He.
    destruct (load_transactions_elem _ _ _ _ _ H He) as (? & ? & ? & _ & _ & Hb & _).
    by apply transaction_of_row_Some in Hb as (? & ? & ? & _ & _ & _ & _ & _ & ->).
  - intros balances b H Hb.
    destruct (load_balances_elem _ _ _ _ H Hb) as (records & i & row & Ho & Hi & Hr & Hl).
    exists records, row. rewrite Hl. replace (i + 1 - 1)%nat with i by lia.
    repeat split; auto.
    by apply balance_of_row_Some in Hr as (_ & ? & ? & ? & _ & _ & -> & ->).
Qed.

Lemma loaded_currency_witness :
  Forall (fun e => currency (DwightEntry.amount e) = "USD")
         [rent_entry; starbucks_entry 3; starbucks_entry 1] /\
  exists records row,
    open_csv example_fs (abspath example_fs "dwight.csv") = Some records /\
    DictReader_rows records !! (RawBalance.line example_balance - 1)%nat = Some row /\
    row_get row "Currency" = Some (currency (RawBalance.amount example_balance)).
Proof.
  split.
  - apply (proj1 (loaded_currency example_fs "dwight.csv") None). reflexivity.
  - apply (proj2 (loaded_currency example_fs "dwight.csv") [example_balance]).
    + reflexivity.
    + apply list_elem_of_singleton. reflexivity.
Defined.

(** C9 as stated fails on the balance stream: with no currency
    configured the transactions carry the default, and the balance
    record carries the 'EUR' of its row. *)
Lemma balance_currency_from_row :
  load_transactions example_fs "dwight.csv" None
    = inr [rent_entry; starbucks_entry 3; starbucks_entry 1] /\
  load_balances example_fs "dwight.csv" = inr [example_balance] /\
  currency (RawBalance.amount example_balance) = "EUR" /\
  currency (RawBalance.amount example_balance) <> default "USD" None.
Proof. repeat split. discriminate. Qed.

(** C10.  Every record of [load_transactions] and every record of
    [load_balances] has the external account id "Zhuohan Li", whatever
    its row holds: all of them resolve through the one mapping of that
    id. *)
Theorem loaded_account_constant fs filename :
  (forall currency entries,
      load_transactions fs filename currency = inr entries ->
      Forall (fun e => DwightEntry.account e = "Zhuohan Li") entries) /\
  (forall balances,
      load_balances fs filename = inr balances ->
      Forall (fun b => RawBalance.account b = "Zhuohan Li") balances).
Proof.
  split.
  - intros currency entries H. apply Forall_forall. intros e He.
    destruct (load_transactions_elem _ _ _ _ _ H He) as (? & ? & ? & _ & _ & Hb & _).
    by apply transaction_of_row_Some in Hb as (? & ? & ? & _ & _ & _ & _ & _ & ->).
  - intros balances H. apply Forall_forall. intros b Hb.
    destruct (load_balances_elem _ _ _ _ H Hb) as (? & ? & ? & _ & _ & Hr & _).
    by apply balance_of_row_Some in Hr as (_ & ? & ? & ? & _ & _ & _ & ->).
Qed.

Lemma loaded_account_constant_witness :
  Forall (fun e => DwightEntry.account e = "Zhuohan Li")
         [rent_entry; starbucks_entry 3; starbucks_entry 1] /\
  Forall (fun b => RawBalance.account b = "Zhuohan Li") [example_balance].
Proof.
  split.
  - apply (proj1 (loaded_account_constant example_fs "dwight.csv") None). reflexivity.
  - apply (proj2 (loaded_account_constant example_fs "dwight.csv")). reflexivity.
Defined.

(** ** Claims on the keys and the drafts *)

(** C5.  A recorded posting and a CSV entry whose account, date,
    amount and description are equal have the same key, whichever of
    the two functions computes it. *)
Theorem keys_agree entry posting source_postings source_desc posting_date x :
  Posting.account posting = DwightEntry.account x ->
  posting_date = DwightEntry.date x ->
  Posting.units posting = DwightEntry.amount x ->
  source_desc = DwightEntry.source_desc x ->
  _get_key_from_posting entry posting source_postings source_desc posting_date
    = _get_key_from_csv_entry x /\
  MatchKey_eqb (_get_key_from_csv_entry x)
    (_get_key_from_posting entry posting source_postings source_desc posting_date) = true.
Proof.
  intros Ha Hd Hu Hs. unfold _get_key_from_posting, _get_key_from_csv_entry.
  rewrite Ha, Hd, Hu, Hs. split; [reflexivity | apply MatchKey_eqb_refl].
Qed.

Lemma keys_agree_witness :
  _get_key_from_posting recorded_transaction recorded_posting
                        (Transaction.postings recorded_transaction)
                        "STARBUCKS" (mkDate 2016 8 10)
    = _get_key_from_csv_entry (replace_account (starbucks_entry 1) "Assets:Dwight") /\
  MatchKey_eqb
    (_get_key_from_csv_entry (replace_account (starbucks_entry 1) "Assets:Dwight"))
    (_get_key_from_posting recorded_transaction recorded_posting
                           (Transaction.postings recorded_transaction)
                           "STARBUCKS" (mkDate 2016 8 10)) = true.
Proof.
  apply (keys_agree recorded_transaction recorded_posting
                    (Transaction.postings recorded_transaction) "STARBUCKS" (mkDate 2016 8 10)
                    (replace_account (starbucks_entry 1) "Assets:Dwight"));
    reflexivity.
Defined.




(** ** The calendar *)

Lemma days_before_next_year (y : Z) :
  days_before_year (y + 1) = days_before_year y + (if is_leap y then 366 else 365).
Proof.
  unfold days_before_year, is_leap.
  replace (y + 1 - 1) with y by lia.
  destruct (Z.eqb_spec (y mod 4) 0), (Z.eqb_spec (y mod 100) 0), (Z.eqb_spec (y mod 400) 0);
    simpl; Z.div_mod_to_equations; lia.
Qed.

Lemma days_before_month_next (y m : Z) :
  1 <= m ->
  days_before_month y (m + 1) = days_before_month y m + days_in_month y m.
Proof.
  intros Hm. unfold days_before_month.
  replace (Z.to_nat (m + 1 - 1)) with (S (Z.to_nat (m - 1))) by lia.
  simpl. f_equal. f_equal. lia.
Qed.

Lemma days_in_month_bounds (y m : Z) : 28 <= days_in_month y m <= 31.
Proof. unfold days_in_month. repeat destruct (_ =? _); simpl; destruct (is_leap y); lia. Qed.

Lemma days_in_year (y : Z) :
  days_before_month y 12 + days_in_month y 12 = if is_leap y then 366 else 365.
Proof.
  unfold days_before_month. change (Z.to_nat (12 - 1)) with 11%nat.
  unfold days_before_month_upto, days_in_month.
  generalize (is_leap y). intros leap. destruct leap; reflexivity.
Qed.

(** The day after a date of the calendar is one day later in the count
    of days, and is a date of the calendar. *)
Lemma date_add_one_day_ordinal (d d' : Date) :
  valid_date d = true ->
  date_add_one_day d = inr d' ->
  toordinal d' = toordinal d + 1 /\ valid_date d' = true.
Proof.
  destruct d as [y m dd]. unfold valid_date, date_add_one_day, date_eqb, date_max, toordinal.
  simpl. rewrite !andb_true_iff, !Z.leb_le. intros [[[[[Hy1 Hy2] Hm1] Hm2] Hd1] Hd2].
  destruct ((y =? 9999) && (m =? 12) && (dd =? 31)) eqn:Hmax; [discriminate|].
  destruct (dd <? days_in_month y m) eqn:Hlt.
  - intros [= <-]. simpl. apply Z.ltb_lt in Hlt. repeat split; lia.
  - apply Z.ltb_ge in Hlt. assert (dd = days_in_month y m) as -> by lia. clear Hlt Hd2.
    destruct (m <? 12) eqn:Hm12.
    + intros [= <-]. simpl. apply Z.ltb_lt in Hm12.
      rewrite days_before_month_next by done.
      pose proof (days_in_month_bounds y (m + 1)). repeat split; lia.
    + intros [= <-]. simpl. apply Z.ltb_ge in Hm12. assert (m = 12) as -> by lia.
      rewrite days_before_next_year. pose proof (days_in_year y) as Hy.
      assert (y <> 9999).
      { intros ->. unfold days_in_month in Hmax. simpl in Hmax. discriminate. }
      change (days_before_month (y + 1) 1) with 0.
      change (days_in_month (y + 1) 1) with 31.
      repeat split; lia.
Qed.

(** ** The results *)

Lemma foldl_add_pending_entry results l :
  foldl SourceResults.add_pending_entry results l
  = SourceResults.mk (SourceResults.pending results ++ l) (SourceResults.invalid results)
                     (SourceResults.warnings results).
Proof.
  revert results. induction l as [|r l IH]; intros results; simpl.
  - rewrite app_nil_r. by destruct results.
  - rewrite IH. simpl. by rewrite <- app_assoc.
Qed.

Lemma foldl_add_invalid_reference results l :
  foldl SourceResults.add_invalid_reference results l
  = SourceResults.mk (SourceResults.pending results) (SourceResults.invalid results ++ l)
                     (SourceResults.warnings results).
Proof.
  revert results. induction l as [|r l IH]; intros results; simpl.
  - rewrite app_nil_r. by destruct results.
  - rewrite IH. simpl. by rewrite <- app_assoc.
Qed.

Lemma foldl_add_warning results (l : list string) :
  foldl (fun results dwight_account =>
           SourceResults.add_warning results (NoAccountWarning dwight_account)) results l
  = SourceResults.mk (SourceResults.pending results) (SourceResults.invalid results)
                     (SourceResults.warnings results ++ (NoAccountWarning <$> l)).
Proof.
  revert results. induction l as [|r l IH]; intros results; simpl.
  - rewrite app_nil_r. by destruct results.
  - rewrite IH. simpl. by rewrite <- app_assoc.
Qed.

(** ** The generator of [prepare] *)

Lemma get_converted_dwight_entries_spec {R} {HR : RawEntry R} (m : gmap string string)
    (entries : list R) : forall missing,
  get_converted_dwight_entries m entries missing
  = (omap (fun raw => replace_account raw <$> resolve_account m (raw_account raw)) entries,
     list_to_set
       (raw_account <$> filter (fun raw => resolve_account m (raw_account raw) = None) entries)
     ∪ missing).
Proof.
  induction entries as [|raw entries IH]; intros missing; simpl.
  - by rewrite (left_id_L ∅ (∪)).
  - rewrite filter_cons.
    destruct (resolve_account m (raw_account raw)) as [account|] eqn:Hr.
    + rewrite decide_False by done. unfold resolve_account in Hr.
      destruct (m !! raw_account raw) as [[|c a]|]; try discriminate.
      injection Hr as <-. by rewrite IH.
    + rewrite decide_True by done. unfold resolve_account in Hr.
      destruct (m !! raw_account raw) as [[|c a]|]; try discriminate;
        rewrite IH; simpl; f_equal;
        by rewrite (assoc_L (∪)), (comm_L (∪) (list_to_set _)).
Qed.

(** ** The balance assertions *)

(** The balance loop ends when every date has a next day. *)
Lemma add_balance_entries_total raw_balances : forall results,
  Forall (fun b => RawBalance.date b <> date_max) raw_balances ->
  exists results', add_balance_entries raw_balances results = inr results'.
Proof.
  induction raw_balances as [|b bs IH]; intros results Hv; simpl; [by eexists|].
  inversion_clear Hv as [|? ? Hb Hbs].
  unfold date_add_one_day. destruct (date_eqb _ date_max) eqn:He.
  - by apply date_eqb_eq in He.
  - repeat destruct (_ <? _); simpl; apply IH; done.
Qed.

(** ** What [prepare] computes *)

(** The balance loop adds the proposals of the balances at their next
    days, when each has one. *)
Lemma add_balance_entries_dates raw_balances : forall results results',
  add_balance_entries raw_balances results = inr results' <->
  exists dates,
    Forall2 (fun b d => date_add_one_day (RawBalance.date b) = inr d) raw_balances dates /\
    results' = SourceResults.mk
                 (SourceResults.pending results ++ zip_with balance_proposal raw_balances dates)
                 (SourceResults.invalid results) (SourceResults.warnings results).
Proof.
  induction raw_balances as [|b bs IH]; intros results results'; simpl.
  - split.
    + intros [= <-]. exists []. split; [constructor|]. simpl. rewrite app_nil_r. by destruct results.
    + intros (dates & Hd & ->). inversion_clear Hd. simpl. rewrite app_nil_r. by destruct results.
  - split.
    + intros H. inv_bind H. apply IH in H as (dates & Hd & ->).
      exists (x :: dates). split; [by constructor|]. simpl. by rewrite <- app_assoc.
    + intros (dates & Hd & ->). inversion Hd as [|? d ? dates' Hb Hbs]; subst.
      rewrite Hb. simpl. apply IH. exists dates'. split; [done|]. simpl. by rewrite <- app_assoc.
Qed.

Lemma mapped_entries_balance_dates journal (balances : list RawBalance.t) :
  Forall (fun b => valid_date (RawBalance.date b) = true) balances ->
  Forall (fun b => valid_date (RawBalance.date b) = true) (mapped_entries journal balances).
Proof.
  unfold mapped_entries. induction 1 as [|b bs Hb Hbs IH]; simpl; [constructor|].
  destruct (resolve_account _ _); simpl; [constructor|]; done.
Qed.

(** [prepare], step by step: the records that resolve are matched
    against the ledger, the ids of the transaction records that do not
    resolve are warned about, and the balances that resolve are
    proposed. *)
Lemma prepare_unfold self journal results :
  DwightSource.prepare self journal results
  = let '(pending, unmatched) :=
      match_entries _get_key_from_csv_entry
                    (mapped_entries journal (DwightSource.dwight_entries self))
                    (ledger_postings journal) in
    add_balance_entries
      (mapped_entries journal (DwightSource.balances self))
      (SourceResults.mk
         (SourceResults.pending results ++ (_make_import_result <$> pending))
         (SourceResults.invalid results ++ (snd <$> unmatched))
         (SourceResults.warnings results
            ++ (NoAccountWarning
                  <$> elements (unmapped_ids journal (DwightSource.dwight_entries self))))).
Proof.
  unfold DwightSource.prepare, mapped_entries, unmapped_ids, ledger_postings,
    account_to_dwight_id, dwight_id_to_account.
  destruct (get_account_mapping _ _) as [a2i i2a]. simpl.
  rewrite !get_converted_dwight_entries_spec.
  unfold get_pending_and_invalid_entries.
  destruct (match_entries _ _ _) as [pending unmatched].
  rewrite foldl_add_pending_entry, foldl_add_invalid_reference, foldl_add_warning. simpl.
  by rewrite (right_id_L ∅ (∪)).
Qed.

(** [prepare] returns when every balance has a next day. *)
Lemma prepare_total self journal results :
  Forall (fun b => RawBalance.date b <> date_max) (DwightSource.balances self) ->
  exists results', DwightSource.prepare self journal results = inr results'.
Proof.
  intros Hb. rewrite prepare_unfold. destruct (match_entries _ _ _) as [pending unmatched].
  apply add_balance_entries_total. unfold mapped_entries.
  induction Hb as [|b bs Hb Hbs IH]; simpl; [constructor|].
  destruct (resolve_account _ _); simpl; [constructor|]; done.
Qed.

(** C8.  When [prepare] returns, the last of its proposals are those
    of the balances that resolve, one for each and in their order;
    the proposal of a balance and the balance assertion in it are both
    dated the day after the snapshot: the date whose day count is one
    more. *)
Theorem balance_proposals_dated_next_day self journal results results' :
  Forall (fun b => valid_date (RawBalance.date b) = true) (DwightSource.balances self) ->
  DwightSource.prepare self journal results = inr results' ->
  exists earlier proposals : list ImportResult.t,
    SourceResults.pending results' = earlier ++ proposals /\
    Forall2 dated_next_day (mapped_entries journal (DwightSource.balances self)) proposals.
Proof.
  intros Hv H. rewrite prepare_unfold in H.
  destruct (match_entries _ _ _) as [pending unmatched].
  apply add_balance_entries_dates in H as (dates & Hd & ->). simpl.
  eexists _, _. split; [reflexivity|].
  apply (mapped_entries_balance_dates journal) in Hv.
  induction Hd as [|b d bs ds Hb Hbs IH]; simpl; [constructor|].
  inversion_clear Hv as [|? ? Hvb Hvbs]. constructor; [|auto].
  destruct (date_add_one_day_ordinal _ _ Hvb Hb) as [Ho _].
  eexists _, _. repeat split; eauto.
Qed.

Lemma balance_proposals_dated_next_day_witness :
  exists earlier proposals : list ImportResult.t,
    SourceResults.pending example_first_run = earlier ++ proposals /\
    Forall2 dated_next_day
            (mapped_entries mapped_journal (DwightSource.balances example_source)) proposals.
Proof.
  apply (balance_proposals_dated_next_day example_source mapped_journal SourceResults.empty).
  - repeat constructor.
  - vm_compute. reflexivity.
Defined.

(** The balance of 2016-08-10 is proposed at 2016-08-11. *)
Example balance_date_shift_example :
  date_add_one_day (mkDate 2016 8 10) = inr (mkDate 2016 8 11) /\
  toordinal (mkDate 2016 8 11) = toordinal (mkDate 2016 8 10) + 1.
Proof. split; reflexivity. Qed.

(** C6.  The export with nothing but the balance row, against a ledger
    with no account for its external id: the balance is not proposed,
    and its id is reported by no warning.  The same id gets its one
    warning when a transaction record has it. *)
Theorem unmapped_balance_id_not_reported :
  DwightSource.__init__ example_fs "balance_only.csv" (Some "balance_only.csv")
    = inr balance_only_source /\
  resolve_account (dwight_id_to_account unmapped_journal) "Zhuohan Li" = None /\
  DwightSource.prepare balance_only_source unmapped_journal SourceResults.empty
    = inr (SourceResults.mk [] [] []) /\
  DwightSource.prepare example_source unmapped_journal SourceResults.empty
    = inr (SourceResults.mk [] [] [NoAccountWarning "Zhuohan Li"]).
Proof. repeat split; vm_compute; reflexivity. Qed.

(** The warnings of [prepare] are those of the ids of its transaction
    records that resolve to no account, one for each id; the balances
    have no part in them. *)
Lemma prepare_warnings self journal results results' :
  DwightSource.prepare self journal results = inr results' ->
  SourceResults.warnings results'
  = SourceResults.warnings results
      ++ (NoAccountWarning <$> elements (unmapped_ids journal (DwightSource.dwight_entries self)))
  /\ NoDup (elements (unmapped_ids journal (DwightSource.dwight_entries self))).
Proof.
  intros H. rewrite prepare_unfold in H.
  destruct (match_entries _ _ _) as [pending unmatched].
  apply add_balance_entries_dates in H as (dates & _ & ->). simpl.
  split; [reflexivity | apply NoDup_elements].
Qed.

(** ** The engine, run again on a ledger with the accepted drafts *)

Lemma consume_app_l key remaining remaining' more :
  consume key remaining = Some remaining' ->
  consume key (remaining ++ more) = Some (remaining' ++ more).
Proof.
  revert remaining'. induction remaining as [|[k tp] rest IH]; intros remaining' H; simpl in *.
  - discriminate.
  - destruct (MatchKey_eqb key k); [by injection H as <-|].
    destruct (consume key rest) as [rest'|]; [|discriminate].
    injection H as <-. by rewrite (IH rest').
Qed.

Lemma consume_app_r key remaining k tp more :
  consume key remaining = None ->
  MatchKey_eqb key k = true ->
  consume key (remaining ++ (k, tp) :: more) = Some (remaining ++ more).
Proof.
  intros H Hk. induction remaining as [|[k0 tp0] rest IH]; simpl in *.
  - by rewrite Hk.
  - destruct (MatchKey_eqb key k0); [discriminate|].
    destruct (consume key rest); [discriminate|]. by rewrite IH.
Qed.

Section MatchEntries.
Context {R : Type} (get_key : R -> MatchKey).

(** The pending records are among the records given. *)
Lemma match_entries_pending raw_entries : forall remaining pending unmatched,
  match_entries get_key raw_entries remaining = (pending, unmatched) ->
  Forall (fun e => e ∈ raw_entries) pending.
Proof.
  induction raw_entries as [|e es IH]; intros remaining pending unmatched H; simpl in H.
  - injection H as <- <-. constructor.
  - destruct (consume (get_key e) remaining) as [remaining'|].
    + eapply Forall_impl; [eapply IH, H|]. intros x Hx. by apply elem_of_cons; right.
    + destruct (match_entries get_key es remaining) as [p u] eqn:Hm.
      injection H as <- <-. constructor; [by apply elem_of_cons; left|].
      eapply Forall_impl; [eapply IH, Hm|]. intros x Hx. by apply elem_of_cons; right.
Qed.

(** Once the ledger has, after what it had, a posting of the key of
    each pending record, the same records leave nothing pending and
    leave the same postings unmatched. *)
Lemma match_entries_accepted raw_entries : forall remaining pending unmatched accepted,
  match_entries get_key raw_entries remaining = (pending, unmatched) ->
  Forall2 (fun e (x : MatchKey * LedgerPosting) => fst x = get_key e) pending accepted ->
  match_entries get_key raw_entries (remaining ++ accepted) = ([], unmatched).
Proof.
  induction raw_entries as [|e es IH]; intros remaining pending unmatched accepted H Ha;
    simpl in H |- *.
  - injection H as <- <-. inversion_clear Ha. by rewrite app_nil_r.
  - destruct (consume (get_key e) remaining) as [remaining'|] eqn:Hc.
    + rewrite (consume_app_l _ _ _ _ Hc). eauto.
    + destruct (match_entries get_key es remaining) as [p u] eqn:Hm.
      injection H as <- <-. inversion Ha as [|? [k tp] ? accepted' Hk Ha']; subst.
      simpl in Hk. subst k.
      rewrite (consume_app_r _ _ _ _ _ Hc (MatchKey_eqb_refl _)). eauto.
Qed.
End MatchEntries.

(** ** The account mapping *)

(** An account that an id maps to is an account of the mapping's other
    direction. *)
Lemma get_account_mapping_dom accounts key dwight_id account :
  snd (get_account_mapping accounts key) !! dwight_id = Some account ->
  account ∈ dom (fst (get_account_mapping accounts key)).
Proof.
  unfold get_account_mapping.
  assert (forall (acc : gmap string string * gmap string string),
             (forall i a, snd acc !! i = Some a -> a ∈ dom (fst acc)) ->
             forall i a,
               snd (foldl (fun '(account_to_id, id_to_account) entry =>
                             match Open.meta entry ≫= (fun meta => meta_get meta key) with
                             | Some (MetaStr account_id) =>
                                 (<[Open.account entry := account_id]> account_to_id,
                                  <[account_id := Open.account entry]> id_to_account)
                             | _ => (account_to_id, id_to_account)
                             end) acc accounts) !! i = Some a ->
               a ∈ dom (fst (foldl (fun '(account_to_id, id_to_account) entry =>
                             match Open.meta entry ≫= (fun meta => meta_get meta key) with
                             | Some (MetaStr account_id) =>
                                 (<[Open.account entry := account_id]> account_to_id,
                                  <[account_id := Open.account entry]> id_to_account)
                             | _ => (account_to_id, id_to_account)
                             end) acc accounts))) as Hinv.
  { induction accounts as [|o accounts IH]; intros [a2i i2a] Hacc; simpl; [exact Hacc|].
    apply IH. destruct (Open.meta o ≫= _) as [[id| |]|]; try exact Hacc.
    simpl in *. intros i a. rewrite lookup_insert. case_decide as Hi.
    - intros [= <-]. rewrite dom_insert_L. apply elem_of_union; left. by apply elem_of_singleton.
    - intros Hl. rewrite dom_insert_L. apply elem_of_union; right. eauto. }
  apply Hinv. simpl. intros i a. by rewrite lookup_empty.
Qed.

Lemma mapped_entries_account journal (entries : list DwightEntry.t) e :
  e ∈ mapped_entries journal entries ->
  DwightEntry.account e ∈ dom (account_to_dwight_id journal).
Proof.
  unfold mapped_entries. intros He. apply list_elem_of_omap in He as (raw & _ & Hr).
  destruct (resolve_account _ _) as [account|] eqn:Hres; [|discriminate].
  injection Hr as <-. simpl. unfold resolve_account in Hres.
  destruct (dwight_id_to_account journal !! _) as [[|c a]|] eqn:Hl; try discriminate.
  injection Hres as <-. by apply get_account_mapping_dom in Hl.
Qed.

(** ** The ledger with the proposals accepted *)

(** A draft has one posting the engine keys, under the key of its
    record. *)
Lemma keyed_postings_draft account_set e :
  DwightEntry.account e ∈ account_set ->
  exists tp,
    ImportResult.entries (_make_import_result e)
      ≫= keyed_postings account_set _get_key_from_posting
    = [(_get_key_from_csv_entry e, tp)].
Proof.
  intros He. unfold _make_import_result. simpl.
  rewrite decide_True by done. simpl.
  destruct (decide (FIXME_ACCOUNT ∈ account_set)); simpl; eexists; reflexivity.
Qed.

Lemma keyed_postings_drafts account_set (pending : list DwightEntry.t) :
  Forall (fun e => DwightEntry.account e ∈ account_set) pending ->
  exists accepted,
    ((_make_import_result <$> pending) ≫= ImportResult.entries)
      ≫= keyed_postings account_set _get_key_from_posting = accepted /\
    Forall2 (fun e (x : MatchKey * LedgerPosting) => fst x = _get_key_from_csv_entry e)
            pending accepted.
Proof.
  induction 1 as [|e es He Hes (accepted & Ha & Hf)].
  - exists []. split; [reflexivity | constructor].
  - destruct (keyed_postings_draft _ _ He) as (tp & Htp).
    exists ((_get_key_from_csv_entry e, tp) :: accepted). split.
    + rewrite fmap_cons, bind_cons, bind_app, Htp, Ha. reflexivity.
    + by constructor.
Qed.

Lemma keyed_postings_balance_proposals account_set get_key raw_balances dates :
  (zip_with balance_proposal raw_balances dates ≫= ImportResult.entries)
    ≫= keyed_postings account_set get_key = [].
Proof.
  revert dates. induction raw_balances as [|b bs IH]; intros [|d ds]; simpl; try reflexivity.
  apply IH.
Qed.

Lemma filter_balance_proposals (pending : list DwightEntry.t) raw_balances dates :
  filter (fun r => is_balance_proposal r = true)
         ((_make_import_result <$> pending) ++ zip_with balance_proposal raw_balances dates)
  = zip_with balance_proposal raw_balances dates.
Proof.
  rewrite filter_app.
  assert (filter (fun r => is_balance_proposal r = true) (_make_import_result <$> pending) = [])
    as ->.
  { induction pending as [|e es IH]; simpl; [reflexivity|].
    rewrite filter_cons. rewrite decide_False; [exact IH | by simpl]. }
  simpl. revert dates. induction raw_balances as [|b bs IH]; intros [|d ds]; simpl; try reflexivity.
  rewrite filter_cons. rewrite decide_True by reflexivity. by rewrite IH.
Qed.

(** A record is matched or proposed only if its external id resolves. *)
Lemma mapped_entries_elem {R} {HR : RawEntry R} journal (entries : list R) e :
  e ∈ mapped_entries journal entries <->
  exists raw account,
    raw ∈ entries /\
    resolve_account (dwight_id_to_account journal) (raw_account raw) = Some account /\
    e = replace_account raw account.
Proof.
  unfold mapped_entries. rewrite list_elem_of_omap. split.
  - intros (raw & Hraw & He).
    destruct (resolve_account _ _) as [account|] eqn:Hres; [|discriminate].
    injection He as <-. exists raw, account. done.
  - intros (raw & account & Hraw & Hres & ->). exists raw. by rewrite Hres.
Qed.

(** What [prepare] adds to the pending proposals: drafts of transaction
    records that resolve, then the balance assertions of the balances
    that resolve.  A record whose id resolves to no account is in
    neither. *)
Lemma prepare_pending self journal results results' :
  DwightSource.prepare self journal results = inr results' ->
  exists pending dates,
    Forall (fun e => e ∈ mapped_entries journal (DwightSource.dwight_entries self)) pending /\
    SourceResults.pending results'
    = SourceResults.pending results
        ++ (_make_import_result <$> pending)
        ++ zip_with balance_proposal (mapped_entries journal (DwightSource.balances self)) dates.
Proof.
  intros H. rewrite prepare_unfold in H.
  destruct (match_entries _ _ _) as [pending unmatched] eqn:Hm.
  apply add_balance_entries_dates in H as (dates & _ & ->). simpl.
  exists pending, dates. split; [eapply match_entries_pending, Hm|]. by rewrite <- app_assoc.
Qed.

Lemma ledger_postings_accept journal (pending : list DwightEntry.t) raw_balances dates :
  Forall (fun e => DwightEntry.account e ∈ dom (account_to_dwight_id journal)) pending ->
  exists accepted,
    ledger_postings
      (accept journal ((_make_import_result <$> pending)
                         ++ zip_with balance_proposal raw_balances dates))
    = ledger_postings journal ++ accepted /\
    Forall2 (fun e (x : MatchKey * LedgerPosting) => fst x = _get_key_from_csv_entry e)
            pending accepted.
Proof.
  intros Hp. destruct (keyed_postings_drafts _ _ Hp) as (accepted & Ha & Hf).
  exists accepted. split; [|exact Hf].
  unfold ledger_postings, accept, account_to_dwight_id in *. simpl.
  rewrite !bind_app, Ha, keyed_postings_balance_proposals. by rewrite app_nil_r.
Qed.

Lemma mapped_entries_accept {R} {HR : RawEntry R} journal proposals (entries : list R) :
  mapped_entries (accept journal proposals) entries = mapped_entries journal entries.
Proof. reflexivity. Qed.

Lemma unmapped_ids_accept {R} {HR : RawEntry R} journal proposals (entries : list R) :
  unmapped_ids (accept journal proposals) entries = unmapped_ids journal entries.
Proof. reflexivity. Qed.

(** C1, as the code has it.  Once the proposals of a first run are
    accepted into the ledger, a second run against the same export
    proposes no transaction again, and finds invalid the postings the
    first run found invalid and no other: none, when the first run
    found none.  The balance assertions are proposed again by every
    run. *)
Theorem second_run_after_acceptance self journal r1 :
  DwightSource.prepare self journal SourceResults.empty = inr r1 ->
  exists r2,
    DwightSource.prepare self (accept journal (SourceResults.pending r1)) SourceResults.empty
      = inr r2 /\
    SourceResults.pending r2
      = filter (fun r => is_balance_proposal r = true) (SourceResults.pending r1) /\
    SourceResults.invalid r2 = SourceResults.invalid r1.
Proof.
  intros H. rewrite prepare_unfold in H.
  destruct (match_entries _ _ (ledger_postings journal)) as [pending unmatched] eqn:Hm.
  apply add_balance_entries_dates in H as (dates & Hd & ->). simpl.
  destruct (ledger_postings_accept journal pending
              (mapped_entries journal (DwightSource.balances self)) dates)
    as (accepted & Hl & Hf).
  { eapply Forall_impl; [eapply match_entries_pending, Hm|].
    intros e. apply mapped_entries_account. }
  rewrite prepare_unfold.
  rewrite !mapped_entries_accept, unmapped_ids_accept.
  rewrite Hl, (match_entries_accepted _ _ _ _ _ _ Hm Hf).
  eexists. split; [|split].
  - apply add_balance_entries_dates. exists dates. split; [exact Hd | reflexivity].
  - simpl. by rewrite filter_balance_proposals.
  - reflexivity.
Qed.

Lemma second_run_after_acceptance_witness :
  exists r2,
    DwightSource.prepare example_source
                         (accept mapped_journal (SourceResults.pending example_first_run))
                         SourceResults.empty = inr r2 /\
    SourceResults.pending r2
      = filter (fun r => is_balance_proposal r = true) (SourceResults.pending example_first_run) /\
    SourceResults.invalid r2 = SourceResults.invalid example_first_run.
Proof.
  apply (second_run_after_acceptance example_source mapped_journal example_first_run).
  vm_compute. reflexivity.
Defined.

(** C1 as stated fails: against the export and the ledger of the first
    run, left as it was, a run proposes what the first did, the three
    transactions and the balance; so does the second. *)
Lemma second_run_on_unmodified_ledger_repeats :
  DwightSource.prepare example_source mapped_journal SourceResults.empty
    = inr example_first_run /\
  length (SourceResults.pending example_first_run) = 4%nat /\
  SourceResults.pending example_first_run <> [].
Proof.
  split; [vm_compute; reflexivity|]. split; [reflexivity | discriminate].
Qed.

(** * Further properties of the loaders *)

(** ** When the loops end *)

Lemma for_enumerate_total {A} (body : nat -> Row -> exn + option A) rows : forall line_i,
  (forall (i : nat) row, rows !! i = Some row -> exists r, body (line_i + i)%nat row = inr r) ->
  exists entries, for_enumerate body line_i rows = inr entries.
Proof.
  induction rows as [|row rows IH]; intros line_i Hb; simpl; [by eexists|].
  destruct (Hb O row eq_refl) as [r Hr]. rewrite Nat.add_0_r in Hr. rewrite Hr. simpl.
  destruct (IH (S line_i)) as [entries He].
  { intros i row' Hi. replace (S line_i + i)%nat with (line_i + S i)%nat by lia.
    by apply Hb. }
  rewrite He. simpl. by eexists.
Qed.

Lemma for_enumerate_rows_load {A} (body : nat -> Row -> exn + option A) rows line_i entries :
  for_enumerate body line_i rows = inr entries ->
  Forall (fun row => exists i r, body i row = inr r) rows.
Proof.
  intros H. apply Forall_forall. intros row Hrow.
  apply list_elem_of_lookup in Hrow as [i Hi].
  destruct (for_enumerate_row _ _ _ _ _ _ H Hi) as (r & Hr & _). eauto.
Qed.

Lemma transaction_of_row_loads filename currency line_i row :
  transaction_row_loads row <->
  exists r, transaction_of_row filename currency line_i row = inr r.
Proof.
  unfold transaction_row_loads, transaction_of_row. split.
  - intros (number & Hn & Hcase).
    destruct (row_get_last_column row number "Description" Hn) as [desc Hdesc].
    { unfold expected_field_names. repeat constructor. }
    rewrite Hn. simpl.
    destruct (Decimal_eqb number ZERO); simpl; [by eexists|].
    case_bool_decide as Hd; simpl; [by eexists|].
    destruct Hcase as [?|[?|[date Hdate]]]; [discriminate | done |].
    rewrite Hdate, Hdesc. simpl. by eexists.
  - intros (r & H).
    destruct (signed_number _) as [e|number] eqn:Hn; simpl in H; [discriminate|].
    exists number. split; [reflexivity|].
    destruct (Decimal_eqb number ZERO); simpl in H; [by left|].
    case_bool_decide as Hd; simpl in H; [by right; left|].
    destruct (row_date row) as [e|date]; simpl in H; [discriminate|].
    right; right. by eexists.
Qed.

Lemma balance_of_row_loads filename account line_i row :
  balance_row_loads row <->
  exists r, balance_of_row filename account line_i row = inr r.
Proof.
  unfold balance_row_loads, balance_of_row. split.
  - intros [Hd | (date & number & Hdate & Hn)].
    + rewrite bool_decide_eq_true_2 by done. by eexists.
    + case_bool_decide; [by eexists|]. rewrite Hdate, Hn. simpl.
      destruct (row_get_last_column row number "Currency" Hn) as [cur Hcur].
      { unfold expected_field_names. repeat constructor. }
      rewrite Hcur. by eexists.
  - intros (r & H). case_bool_decide as Hd; [by left|]. right.
    destruct (row_date row) as [e|date]; simpl in H; [discriminate|].
    destruct (signed_number _) as [e|number]; simpl in H; [discriminate|].
    by exists date, number.
Qed.

(** X1.  On a file whose amounts are written plainly and whose dates
    are in ASCII, [load_transactions] returns a list exactly when the
    file opens, its header is the expected one, and in every row the
    amount can be read and, unless the amount is zero or the row is
    the balance row, the date can be read: a skipped row may hold any
    date. *)
Theorem load_transactions_succeeds_iff fs filename currency :
  forallb plain_row (DictReader_rows (default [] (open_csv fs (abspath fs filename)))) = true ->
  (exists entries, load_transactions fs filename currency = inr entries) <->
  exists records,
    open_csv fs (abspath fs filename) = Some records /\
    DictReader_fieldnames records = Some expected_field_names /\
    Forall transaction_row_loads (DictReader_rows records).
Proof.
  intros _. split.
  - intros (entries & H).
    apply load_transactions_inr in H as (records & entries0 & Ho & Hf & Hl & _).
    exists records. repeat split; [done..|].
    eapply Forall_impl; [exact (for_enumerate_rows_load _ _ _ _ Hl)|].
    intros row (i & r & Hr).
    apply (transaction_of_row_loads (abspath fs filename) (default "USD" currency) i). eauto.
  - intros (records & Ho & Hf & Hrows).
    destruct (for_enumerate_total
                (transaction_of_row (abspath fs filename) (default "USD" currency))
                (DictReader_rows records) 0) as [entries0 Hl].
    { intros i row Hi. apply transaction_of_row_loads.
      rewrite Forall_forall in Hrows. apply Hrows. by eapply list_elem_of_lookup_2. }
    exists (sort_by_date (rev entries0)).
    unfold load_transactions, open_file, check_field_names.
    rewrite Ho. simpl. rewrite decide_True by done. simpl. by rewrite Hl.
Qed.

Lemma load_transactions_succeeds_iff_witness :
  (exists entries, load_transactions example_fs "dwight.csv" None = inr entries) <->
  exists records,
    open_csv example_fs (abspath example_fs "dwight.csv") = Some records /\
    DictReader_fieldnames records = Some expected_field_names /\
    Forall transaction_row_loads (DictReader_rows records).
Proof.
  apply (load_transactions_succeeds_iff example_fs "dwight.csv" None). reflexivity.
Defined.

(** X2.  On a file whose balance rows have a plainly written amount
    and a date in ASCII, [load_balances] returns a list exactly when
    the file opens, its header is the expected one, and the date and
    the amount of every balance row can be read: it reads nothing of
    the other rows but their description. *)
Theorem load_balances_succeeds_iff fs filename :
  forallb plain_balance_row
          (DictReader_rows (default [] (open_csv fs (abspath fs filename)))) = true ->
  (exists balances, load_balances fs filename = inr balances) <->
  exists records,
    open_csv fs (abspath fs filename) = Some records /\
    DictReader_fieldnames records = Some expected_field_names /\
    Forall balance_row_loads (DictReader_rows records).
Proof.
  intros _. split.
  - intros (balances & H).
    apply load_balances_inr in H as (records & Ho & Hf & Hl).
    exists records. repeat split; [done..|].
    eapply Forall_impl; [exact (for_enumerate_rows_load _ _ _ _ Hl)|].
    intros row (i & r & Hr).
    apply (balance_of_row_loads (abspath fs filename) "Zhuohan Li" i). eauto.
  - intros (records & Ho & Hf & Hrows).
    destruct (for_enumerate_total
                (balance_of_row (abspath fs filename) "Zhuohan Li")
                (DictReader_rows records) 0) as [balances Hl].
    { intros i row Hi. apply balance_of_row_loads.
      rewrite Forall_forall in Hrows. apply Hrows. by eapply list_elem_of_lookup_2. }
    exists balances.
    unfold load_balances, open_file, check_field_names.
    rewrite Ho. simpl. rewrite decide_True by done. simpl. exact Hl.
Qed.

Lemma load_balances_succeeds_iff_witness :
  (exists balances, load_balances more_fs "balances.csv" = inr balances) <->
  exists records,
    open_csv more_fs (abspath more_fs "balances.csv") = Some records /\
    DictReader_fieldnames records = Some expected_field_names /\
    Forall balance_row_loads (DictReader_rows records).
Proof.
  apply (load_balances_succeeds_iff more_fs "balances.csv"). reflexivity.
Defined.

(** ** The records and their rows *)

Lemma strptime_date_valid s d : strptime_date s = inr d -> valid_date d = true.
Proof.
  unfold strptime_date. intros H.
  repeat match type of H with
         | context [match ?x with _ => _ end] => destruct x eqn:?; try discriminate H
         end.
  by injection H as <-.
Qed.

Lemma row_date_valid row d : row_date row = inr d -> valid_date d = true.
Proof.
  unfold row_date. intros H. apply try_except_inr in H.
  destruct (row_get row "Date") as [s|]; simpl in H; [|discriminate].
  by eapply strptime_date_valid.
Qed.

Lemma StronglySorted_lt_NoDup {A} (f : A -> nat) (l : list A) :
  StronglySorted (fun a b => (f a < f b)%nat) l -> NoDup (f <$> l).
Proof.
  induction 1 as [|x l Hs IH Hx]; simpl; constructor; [|done].
  intros Hin. apply list_elem_of_fmap in Hin as (y & Hy & Hin).
  rewrite Forall_forall in Hx. specialize (Hx y Hin). lia.
Qed.

(** X3.  The same file read by both loaders: no row gives both a
    transaction and a balance. *)
Theorem transactions_and_balances_disjoint fs filename currency entries balances :
  load_transactions fs filename currency = inr entries ->
  load_balances fs filename = inr balances ->
  Forall (fun e => Forall (fun b => DwightEntry.line e <> RawBalance.line b) balances) entries.
Proof.
  intros He Hb. apply Forall_forall. intros e Hin. apply Forall_forall. intros b Hinb Hl.
  destruct (load_transactions_elem _ _ _ _ _ He Hin) as (records & i & row & Ho & Hi & Hr & Hle).
  destruct (load_balances_elem _ _ _ _ Hb Hinb) as (records' & i' & row' & Ho' & Hi' & Hr' & Hlb).
  assert (i' = i) as -> by lia. assert (records' = records) as -> by congruence.
  assert (row' = row) as -> by congruence.
  apply transaction_of_row_Some in Hr as (? & ? & desc & _ & _ & Hd & Hne & _).
  apply balance_of_row_Some in Hr' as [Hd' _]. congruence.
Qed.

Lemma transactions_and_balances_disjoint_witness :
  Forall (fun e => Forall (fun b => DwightEntry.line e <> RawBalance.line b) [example_balance])
         [rent_entry; starbucks_entry 3; starbucks_entry 1].
Proof.
  apply (transactions_and_balances_disjoint example_fs "dwight.csv" None); reflexivity.
Defined.

(** X4.  When [load_transactions] returns, a row of the file has a
    record exactly when its amount is not zero and it is not the
    balance row. *)
Theorem transaction_row_loaded_iff fs filename currency records entries (i : nat) row :
  open_csv fs (abspath fs filename) = Some records ->
  load_transactions fs filename currency = inr entries ->
  DictReader_rows records !! i = Some row ->
  exists number,
    signed_number (row_get row "Zhanghao Wu") = inr number /\
    ((exists e, e ∈ entries /\ DwightEntry.line e = (i + 1)%nat) <->
     Decimal_eqb number ZERO = false /\ row_get row "Description" <> Some "Total balance").
Proof.
  intros Ho H Hi.
  pose proof H as Hload.
  apply load_transactions_inr in H as (records' & entries0 & Ho' & _ & Hl & ->).
  assert (records' = records) as -> by congruence.
  destruct (for_enumerate_row _ _ _ _ _ _ Hl Hi) as (r & Hr & Hin). simpl in Hr.
  pose proof Hr as Hr0. unfold transaction_of_row in Hr0.
  destruct (signed_number _) as [?|number] eqn:Hn; simpl in Hr0; [discriminate|].
  exists number. split; [reflexivity|]. split.
  - intros (e & He & Hle).
    destruct (load_transactions_elem _ _ _ _ _ Hload He)
      as (records' & i' & row' & Ho'' & Hi' & Hb & Hl').
    assert (i' = i) as -> by lia. assert (records' = records) as -> by congruence.
    assert (row' = row) as -> by congruence.
    apply transaction_of_row_Some in Hb as (n' & ? & desc & Hn' & Hz & Hd & Hne & _).
    split; congruence.
  - intros [Hz Hd]. rewrite Hz in Hr0. simpl in Hr0.
    rewrite bool_decide_eq_false_2 in Hr0 by done. simpl in Hr0.
    destruct (row_date row) as [?|date]; simpl in Hr0; [discriminate|].
    destruct (row_get row "Description") as [desc|]; [|discriminate].
    injection Hr0 as <-. eexists. split.
    + apply elem_of_sort_by_date_rev. by apply Hin.
    + reflexivity.
Qed.

Lemma transaction_row_loaded_iff_witness :
  exists number,
    signed_number
      (row_get ["2016-08-09"; "Rent"; "Home"; "100.00"; "USD"; "-50.00"; "50.00"] "Zhanghao Wu")
      = inr number /\
    ((exists e, e ∈ [rent_entry; starbucks_entry 3; starbucks_entry 1]
                /\ DwightEntry.line e = (1 + 1)%nat) <->
     Decimal_eqb number ZERO = false /\
     row_get ["2016-08-09"; "Rent"; "Home"; "100.00"; "USD"; "-50.00"; "50.00"] "Description"
       <> Some "Total balance").
Proof.
  apply (transaction_row_loaded_iff example_fs "dwight.csv" None example_export); reflexivity.
Defined.

(** X5.  [load_balances] returns its records in the order of their
    rows, whatever their dates: it does not sort. *)
Theorem load_balances_in_file_order fs filename balances :
  load_balances fs filename = inr balances ->
  StronglySorted (fun a b => (RawBalance.line a < RawBalance.line b)%nat) balances.
Proof.
  intros H. apply load_balances_inr in H as (records & _ & _ & Hl).
  eapply (for_enumerate_lines _ RawBalance.line); [|exact Hl].
  intros i row b Hb. by apply balance_of_row_Some in Hb as (_ & ? & ? & ? & _ & _ & _ & ->).
Qed.

Lemma load_balances_in_file_order_witness :
  StronglySorted (fun a b => (RawBalance.line a < RawBalance.line b)%nat)
                 [september_balance; august_balance].
Proof.
  apply (load_balances_in_file_order more_fs "balances.csv"). reflexivity.
Defined.

(** X6.  The date of every loaded record, transaction or balance, is a
    date of the calendar. *)
Theorem loaded_dates_valid fs filename :
  (forall currency entries,
      load_transactions fs filename currency = inr entries ->
      Forall (fun e => valid_date (DwightEntry.date e) = true) entries) /\
  (forall balances,
      load_balances fs filename = inr balances ->
      Forall (fun b => valid_date (RawBalance.date b) = true) balances).
Proof.
  split.
  - intros currency entries H. apply Forall_forall. intros e He.
    destruct (load_transactions_elem _ _ _ _ _ H He) as (? & ? & ? & _ & _ & Hb & _).
    apply transaction_of_row_Some in Hb as (? & ? & ? & _ & _ & _ & _ & Hd & ->).
    by apply row_date_valid in Hd.
  - intros balances H. apply Forall_forall. intros b Hb.
    destruct (load_balances_elem _ _ _ _ H Hb) as (? & ? & ? & _ & _ & Hr & _).
    apply balance_of_row_Some in Hr as (_ & ? & ? & ? & Hd & _ & _ & ->).
    by apply row_date_valid in Hd.
Qed.

Lemma loaded_dates_valid_witness :
  Forall (fun e => valid_date (DwightEntry.date e) = true)
         [rent_entry; starbucks_entry 3; starbucks_entry 1] /\
  Forall (fun b => valid_date (RawBalance.date b) = true) [september_balance; august_balance].
Proof.
  split.
  - apply (proj1 (loaded_dates_valid example_fs "dwight.csv") None). reflexivity.
  - apply (proj2 (loaded_dates_valid more_fs "balances.csv")). reflexivity.
Defined.

(** X7.  No record of [load_transactions] has a zero amount or the
    description 'Total balance'. *)
Theorem loaded_transactions_nonzero fs filename currency entries :
  load_transactions fs filename currency = inr entries ->
  Forall (fun e => Decimal_eqb (number (DwightEntry.amount e)) ZERO = false /\
                   DwightEntry.source_desc e <> "Total balance") entries.
Proof.
  intros H. apply Forall_forall. intros e He.
  destruct (load_transactions_elem _ _ _ _ _ H He) as (? & ? & ? & _ & _ & Hb & _).
  by apply transaction_of_row_Some in Hb as (? & ? & ? & _ & Hz & _ & Hd & _ & ->).
Qed.

Lemma loaded_transactions_nonzero_witness :
  Forall (fun e => Decimal_eqb (number (DwightEntry.amount e)) ZERO = false /\
                   DwightEntry.source_desc e <> "Total balance")
         [rent_entry; starbucks_entry 3; starbucks_entry 1].
Proof.
  apply (loaded_transactions_nonzero example_fs "dwight.csv" None). reflexivity.
Defined.

(** X8.  Provenance: the records of [load_transactions] have the
    absolute path of the file and the positions of distinct rows of
    it, and the draft made of a record, under whatever account, has
    them in its info. *)
Theorem loaded_provenance fs filename currency records entries :
  open_csv fs (abspath fs filename) = Some records ->
  load_transactions fs filename currency = inr entries ->
  NoDup (DwightEntry.line <$> entries) /\
  Forall (fun e =>
            DwightEntry.filename e = abspath fs filename /\
            (1 <= DwightEntry.line e <= length (DictReader_rows records))%nat /\
            forall account,
              ImportResult.info (_make_import_result (replace_account e account))
              = Info.mk "text/csv" (abspath fs filename) (DwightEntry.line e))
         entries.
Proof.
  intros Ho H. split.
  - apply load_transactions_inr in H as (records' & entries0 & _ & _ & Hl & ->).
    rewrite sort_by_date_Permutation, <- (Permutation_rev entries0).
    apply StronglySorted_lt_NoDup.
    eapply (for_enumerate_lines _ DwightEntry.line); [|exact Hl].
    intros i row e He.
    by apply transaction_of_row_Some in He as (? & ? & ? & _ & _ & _ & _ & _ & ->).
  - apply Forall_forall. intros e He.
    destruct (load_transactions_elem _ _ _ _ _ H He) as (records' & i & row & Ho' & Hi & Hb & Hl).
    assert (records' = records) as -> by congruence.
    apply lookup_lt_Some in Hi.
    apply transaction_of_row_Some in Hb as (? & ? & ? & _ & _ & _ & _ & _ & ->).
    simpl. split; [reflexivity|]. split; [lia | reflexivity].
Qed.

Lemma loaded_provenance_witness :
  NoDup (DwightEntry.line <$> [rent_entry; starbucks_entry 3; starbucks_entry 1]) /\
  Forall (fun e =>
            DwightEntry.filename e = abspath example_fs "dwight.csv" /\
            (1 <= DwightEntry.line e <= length (DictReader_rows example_export))%nat /\
            forall account,
              ImportResult.info (_make_import_result (replace_account e account))
              = Info.mk "text/csv" (abspath example_fs "dwight.csv") (DwightEntry.line e))
         [rent_entry; starbucks_entry 3; starbucks_entry 1].
Proof.
  apply (loaded_provenance example_fs "dwight.csv" None example_export); reflexivity.
Defined.

(** ** Failures *)

(** X9.  A file under any other header, an empty file too, is refused
    by both loaders whatever its rows hold, with the error that names
    the header found and the one expected; [load_transactions] wraps
    it with the path. *)
Theorem load_refuses_other_header fs filename currency records :
  open_csv fs (abspath fs filename) = Some records ->
  DictReader_fieldnames records <> Some expected_field_names ->
  load_transactions fs filename currency
    = inl (RuntimeError_incorrect_format (abspath fs filename)
             (RuntimeError_field_names (DictReader_fieldnames records) expected_field_names)) /\
  load_balances fs filename
    = inl (RuntimeError_field_names (DictReader_fieldnames records) expected_field_names).
Proof.
  intros Ho Hf. unfold load_transactions, load_balances, open_file, check_field_names.
  rewrite Ho. simpl. rewrite decide_False by done. split; reflexivity.
Qed.

Lemma load_refuses_other_header_witness :
  load_transactions more_fs "mint.csv" None
    = inl (RuntimeError_incorrect_format (abspath more_fs "mint.csv")
             (RuntimeError_field_names (DictReader_fieldnames other_header_export)
                                       expected_field_names)) /\
  load_balances more_fs "mint.csv"
    = inl (RuntimeError_field_names (DictReader_fieldnames other_header_export)
                                    expected_field_names).
Proof.
  apply (load_refuses_other_header more_fs "mint.csv" None other_header_export).
  - reflexivity.
  - discriminate.
Defined.

Lemma for_enumerate_first_inl {A} (body : nat -> Row -> exn + option A) rows : forall line_i e,
  for_enumerate body line_i rows = inl e ->
  exists (i : nat) row,
    rows !! i = Some row /\ body (line_i + i)%nat row = inl e /\
    forall (j : nat) row',
      (j < i)%nat -> rows !! j = Some row' -> exists r, body (line_i + j)%nat row' = inr r.
Proof.
  induction rows as [|row rows IH]; intros line_i e H; simpl in H; [discriminate|].
  destruct (body line_i row) as [e0|r] eqn:Hb; simpl in H.
  - injection H as <-. exists O, row. rewrite Nat.add_0_r. repeat split; [done|]. intros; lia.
  - destruct (for_enumerate body (S line_i) rows) as [e1|es] eqn:Hl; simpl in H; [|discriminate].
    injection H as <-. destruct (IH _ _ Hl) as (i & row' & Hi & Hb' & Hbefore).
    exists (S i), row'. replace (line_i + S i)%nat with (S line_i + i)%nat by lia.
    repeat split; [done..|].
    intros [|j] row'' Hj Hrow; simpl in Hrow.
    + injection Hrow as <-. rewrite Nat.add_0_r. eauto.
    + replace (line_i + S j)%nat with (S line_i + j)%nat by lia.
      eapply Hbefore; [|exact Hrow]. lia.
Qed.

(** X10.  When a row makes [load_transactions] fail, the error it
    raises wraps that of the first such row of the file: the rows
    before it were read without error, and none after it is read. *)
Theorem load_transactions_first_failure fs filename currency records e :
  open_csv fs (abspath fs filename) = Some records ->
  DictReader_fieldnames records = Some expected_field_names ->
  load_transactions fs filename currency = inl e ->
  exists (i : nat) row cause,
    DictReader_rows records !! i = Some row /\
    transaction_of_row (abspath fs filename) (default "USD" currency) i row = inl cause /\
    e = RuntimeError_incorrect_format (abspath fs filename) cause /\
    Forall transaction_row_loads (take i (DictReader_rows records)).
Proof.
  intros Ho Hf H. unfold load_transactions, open_file, check_field_names in H.
  rewrite Ho in H. simpl in H. rewrite decide_True in H by done. simpl in H.
  destruct (for_enumerate _ 0 _) as [cause|entries] eqn:Hl; simpl in H; [|discriminate].
  injection H as <-.
  apply for_enumerate_first_inl in Hl as (i & row & Hi & Hb & Hbefore). simpl in Hb.
  exists i, row, cause. repeat split; [done..|].
  apply Forall_forall. intros row' Hrow'.
  apply list_elem_of_lookup in Hrow' as [j Hj].
  apply lookup_take_Some in Hj as [Hj Hlt].
  apply (transaction_of_row_loads (abspath fs filename) (default "USD" currency) j).
  by apply (Hbefore j).
Qed.

Lemma load_transactions_first_failure_witness :
  exists (i : nat) row cause,
    DictReader_rows balances_export !! i = Some row /\
    transaction_of_row (abspath more_fs "balances.csv") (default "USD" None) i row = inl cause /\
    RuntimeError_incorrect_format "/data/balances.csv" ValueError
      = RuntimeError_incorrect_format (abspath more_fs "balances.csv") cause /\
    Forall transaction_row_loads (take i (DictReader_rows balances_export)).
Proof.
  apply (load_transactions_first_failure more_fs "balances.csv" None balances_export);
    reflexivity.
Defined.

(** ** The columns read *)

Lemma transaction_of_row_same_columns filename currency line_i row row' :
  same_transaction_columns row row' ->
  transaction_of_row filename currency line_i row
  = transaction_of_row filename currency line_i row'.
Proof.
  intros (Hdate & Hdesc & Hamount). unfold transaction_of_row, row_date.
  by rewrite Hdate, Hdesc, Hamount.
Qed.

Lemma for_enumerate_Forall2 {A} (body : nat -> Row -> exn + option A) rows rows' :
  Forall2 (fun row row' => forall i, body i row = body i row') rows rows' ->
  forall line_i, for_enumerate body line_i rows = for_enumerate body line_i rows'.
Proof.
  induction 1 as [|row row' rows rows' Hrow Hrows IH]; intros line_i; simpl; [done|].
  by rewrite Hrow, IH.
Qed.

Lemma DictReader_rows_same_columns (records records' : list Row) :
  Forall2 same_transaction_columns (tail records) (tail records') ->
  Forall2 same_transaction_columns (DictReader_rows records) (DictReader_rows records').
Proof.
  unfold DictReader_rows.
  induction 1 as [|row row' rows rows' Hrow Hrows IH]; [constructor|].
  rewrite !filter_cons.
  assert (row = [] <-> row' = []) as Hblank.
  { destruct Hrow as (Hdate & _). unfold row_get in Hdate. simpl in Hdate.
    destruct row, row'; simpl in Hdate; split; intros; try done; discriminate. }
  destruct (decide (row = [])) as [He|Hne].
  - assert (row' = []) as -> by (by apply Hblank). subst row.
    rewrite !decide_False by (by intros ?). exact IH.
  - assert (row' ≠ []) by (intros ?; by apply Hne, Hblank).
    rewrite !decide_True by done. by constructor.
Qed.

(** X11.  [load_transactions] reads the columns Date, Description and
    Zhanghao Wu and no other: two files with the same header whose
    rows agree in these three load alike, whatever their category,
    cost, currency and other share. *)
Theorem load_transactions_reads_three_columns fs fs' filename currency records records' :
  abspath fs filename = abspath fs' filename ->
  open_csv fs (abspath fs filename) = Some records ->
  open_csv fs' (abspath fs' filename) = Some records' ->
  DictReader_fieldnames records = DictReader_fieldnames records' ->
  Forall2 same_transaction_columns (tail records) (tail records') ->
  load_transactions fs filename currency = load_transactions fs' filename currency.
Proof.
  intros Hpath Ho Ho' Hf Hrows. unfold load_transactions, open_file, check_field_names.
  rewrite <- Hpath, Ho. rewrite <- Hpath in Ho'. rewrite Ho'. simpl. rewrite <- Hf.
  destruct (decide _); simpl; [|done].
  rewrite (for_enumerate_Forall2 _ (DictReader_rows records) (DictReader_rows records')); [done|].
  eapply Forall2_impl; [by apply DictReader_rows_same_columns|].
  intros row row' Hrow i. by apply transaction_of_row_same_columns.
Qed.

Lemma load_transactions_reads_three_columns_witness :
  load_transactions example_fs "dwight.csv" None = load_transactions more_fs "dwight.csv" None.
Proof.
  apply (load_transactions_reads_three_columns example_fs more_fs "dwight.csv" None
           example_export other_columns_export); try reflexivity.
  repeat constructor.
Defined.

(** * Further properties of the source *)

(** ** The generator of [prepare] *)

(** X12.  [get_converted_dwight_entries] yields, in the order of the
    entries and once for each, the entries whose id has a ledger
    account, that account in place of the id, and nothing else; it
    leaves in [missing_accounts] what it held and the ids of the other
    entries, and nothing else.  An id has a ledger account when the
    mapping associates it with one that is not the empty name. *)
Theorem get_converted_dwight_entries_accounts {R} {HR : RawEntry R}
    (m : gmap string string) (entries : list R) missing converted missing' :
  get_converted_dwight_entries m entries missing = (converted, missing') ->
  converted
    = omap (fun raw => replace_account raw <$> resolve_account m (raw_account raw)) entries /\
  missing'
    = list_to_set
        (raw_account <$> filter (fun raw => resolve_account m (raw_account raw) = None) entries)
      ∪ missing /\
  (forall id account,
      resolve_account m id = Some account <-> m !! id = Some account /\ account <> "").
Proof.
  rewrite get_converted_dwight_entries_spec. intros [= <- <-].
  split; [reflexivity|]. split; [reflexivity|].
  intros id account. unfold resolve_account.
  destruct (m !! id) as [[|c a]|]; split; intros H; try discriminate.
  - by destruct H as [[= <-] ?].
  - by injection H as <-.
  - by destruct H as [[= <-] _].
  - by destruct H.
Qed.

Lemma get_converted_dwight_entries_accounts_witness :
  [replace_account rent_entry "Assets:Dwight"]
    = omap (fun raw => replace_account raw
                         <$> resolve_account example_mapping (raw_account raw))
           three_ids_entries /\
  ({["Nobody"; "Somebody"]} : gset string)
    = list_to_set
        (raw_account
           <$> filter (fun raw => resolve_account example_mapping (raw_account raw) = None)
                      three_ids_entries)
      ∪ ∅ /\
  (forall id account,
      resolve_account example_mapping id = Some account
      <-> example_mapping !! id = Some account /\ account <> "").
Proof.
  apply (get_converted_dwight_entries_accounts example_mapping three_ids_entries ∅).
  vm_compute. reflexivity.
Defined.

(** ** The drafts *)

(** X13.  The metadata of the first posting of a draft give back the
    key of its record: [_get_key_from_posting], on that posting with
    the [source_desc] and the [date] read from its metadata, is
    [_get_key_from_csv_entry] of the record. *)
Theorem draft_key_round_trip (dwight_entry : DwightEntry.t) :
  exists transaction posting others meta source_desc posting_date,
    ImportResult.entries (_make_import_result dwight_entry) = [DTransaction transaction] /\
    Transaction.postings transaction = posting :: others /\
    Posting.meta posting = Some meta /\
    meta_get meta "source_desc" = Some (MetaStr source_desc) /\
    meta_get meta "date" = Some (MetaDate posting_date) /\
    _get_key_from_posting transaction posting (Transaction.postings transaction)
                          source_desc posting_date
      = _get_key_from_csv_entry dwight_entry /\
    Forall (fun p => Posting.meta p = None) others.
Proof.
  unfold _make_import_result. do 6 eexists.
  repeat (split; [reflexivity|]). repeat constructor.
Qed.

(** ** When [prepare] fails *)




(** ** A source as [__init__] builds it *)

Lemma init_inr fs filename balances_directory self :
  DwightSource.__init__ fs filename balances_directory = inr self ->
  load_transactions fs filename None = inr (DwightSource.dwight_entries self) /\
  (DwightSource.balances self = [] \/
   exists dir, balances_directory = Some dir /\ dir <> "" /\
               load_balances fs dir = inr (DwightSource.balances self)).
Proof.
  unfold DwightSource.__init__. intros H. inv_bind H. subst self. simpl. split; [done|].
  destruct balances_directory as [[|c dir]|]; inv_bind Hx0; subst; eauto.
Qed.

Lemma init_accounts fs filename balances_directory self :
  DwightSource.__init__ fs filename balances_directory = inr self ->
  Forall (fun e => DwightEntry.account e = "Zhuohan Li") (DwightSource.dwight_entries self) /\
  Forall (fun b => RawBalance.account b = "Zhuohan Li") (DwightSource.balances self).
Proof.
  intros H. apply init_inr in H as [He Hb]. split.
  - apply Forall_forall. intros e Hin.
    destruct (load_transactions_elem _ _ _ _ _ He Hin) as (? & ? & ? & _ & _ & Hr & _).
    by apply transaction_of_row_Some in Hr as (? & ? & ? & _ & _ & _ & _ & _ & ->).
  - destruct Hb as [-> | (dir & _ & _ & Hb)]; [constructor|].
    apply Forall_forall. intros b Hin.
    destruct (load_balances_elem _ _ _ _ Hb Hin) as (? & ? & ? & _ & _ & Hr & _).
    by apply balance_of_row_Some in Hr as (_ & ? & ? & ? & _ & _ & _ & ->).
Qed.

Lemma init_balance_dates fs filename balances_directory self :
  DwightSource.__init__ fs filename balances_directory = inr self ->
  Forall (fun b => valid_date (RawBalance.date b) = true) (DwightSource.balances self).
Proof.
  intros H. apply init_inr in H as [_ [-> | (dir & _ & _ & Hb)]]; [constructor|].
  apply Forall_forall. intros b Hin.
  destruct (load_balances_elem _ _ _ _ Hb Hin) as (? & ? & ? & _ & _ & Hr & _).
  apply balance_of_row_Some in Hr as (_ & ? & ? & ? & Hd & _ & _ & ->).
  by apply row_date_valid in Hd.
Qed.

Lemma mapped_entries_resolved {R} {HR : RawEntry R} journal (entries : list R) id account :
  Forall (fun raw => raw_account raw = id) entries ->
  resolve_account (dwight_id_to_account journal) id = Some account ->
  mapped_entries journal entries = (fun raw => replace_account raw account) <$> entries /\
  unmapped_ids journal entries = ∅.
Proof.
  intros Hid Hres. unfold mapped_entries, unmapped_ids.
  induction Hid as [|raw entries Hraw Hrest [IH1 IH2]]; [done|].
  simpl. rewrite filter_cons, Hraw, Hres. simpl.
  split; [f_equal; exact IH1 | exact IH2].
Qed.

Lemma mapped_entries_unresolved {R} {HR : RawEntry R} journal (entries : list R) id :
  Forall (fun raw => raw_account raw = id) entries ->
  resolve_account (dwight_id_to_account journal) id = None ->
  mapped_entries journal entries = [] /\
  unmapped_ids journal entries = (if entries is [] then ∅ else {[id]}).
Proof.
  intros Hid Hres. unfold mapped_entries, unmapped_ids.
  induction Hid as [|raw entries Hraw Hrest [IH1 IH2]]; [done|].
  simpl. rewrite filter_cons, Hraw, Hres. simpl.
  split; [exact IH1|]. rewrite Hraw.
  etransitivity; [exact (f_equal (union {[id]}) IH2)|].
  destruct entries; [by rewrite (right_id_L ∅ (∪)) | by rewrite (idemp_L (∪))].
Qed.



(** X16.  From the file to the proposal: for a source as [__init__]
    builds it, when [prepare] returns, the last of its proposals are
    those of the balances that resolve, each dated the day after its
    snapshot, with no assumption on the dates: the loader only makes
    dates of the calendar. *)
Theorem loaded_balances_proposed_next_day
    fs filename balances_directory self journal results results' :
  DwightSource.__init__ fs filename balances_directory = inr self ->
  DwightSource.prepare self journal results = inr results' ->
  exists earlier proposals : list ImportResult.t,
    SourceResults.pending results' = earlier ++ proposals /\
    Forall2 dated_next_day (mapped_entries journal (DwightSource.balances self)) proposals.
Proof.
  intros Hinit H. apply init_balance_dates in Hinit.
  apply (mapped_entries_balance_dates journal) in Hinit.
  rewrite prepare_unfold in H. destruct (match_entries _ _ _) as [pending unmatched].
  apply add_balance_entries_dates in H as (dates & Hd & ->). simpl.
  eexists _, _. split; [reflexivity|].
  induction Hd as [|b d bs ds Hb Hbs IH]; simpl; [constructor|].
  inversion_clear Hinit as [|? ? Hvb Hvbs]. constructor; [|auto].
  destruct (date_add_one_day_ordinal _ _ Hvb Hb) as [Ho _].
  eexists _, _. repeat split; eauto.
Qed.

Lemma loaded_balances_proposed_next_day_witness :
  exists earlier proposals : list ImportResult.t,
    SourceResults.pending example_first_run = earlier ++ proposals /\
    Forall2 dated_next_day
            (mapped_entries mapped_journal (DwightSource.balances example_source)) proposals.
Proof.
  apply (loaded_balances_proposed_next_day example_fs "dwight.csv" (Some "dwight.csv")
           example_source mapped_journal SourceResults.empty).
  - reflexivity.
  - vm_compute. reflexivity.
Defined.

(** X17.  All the records of a source as [__init__] builds it have the
    one external id, so they resolve together.  When the id has a
    ledger account, every transaction and every balance is converted
    to it and nothing is warned about.  When it has none, nothing is
    proposed, and at most one warning is added: the one naming the id,
    when there is a transaction. *)
Theorem loaded_source_resolves_together
    fs filename balances_directory self journal results results' :
  DwightSource.__init__ fs filename balances_directory = inr self ->
  DwightSource.prepare self journal results = inr results' ->
  match resolve_account (dwight_id_to_account journal) "Zhuohan Li" with
  | Some account =>
      mapped_entries journal (DwightSource.dwight_entries self)
        = (fun e => replace_account e account) <$> DwightSource.dwight_entries self /\
      mapped_entries journal (DwightSource.balances self)
        = (fun b => replace_account b account) <$> DwightSource.balances self /\
      SourceResults.warnings results' = SourceResults.warnings results
  | None =>
      SourceResults.pending results' = SourceResults.pending results /\
      (length (SourceResults.warnings results')
         <= length (SourceResults.warnings results) + 1)%nat /\
      (DwightSource.dwight_entries self <> [] ->
       SourceResults.warnings results'
         = SourceResults.warnings results ++ [NoAccountWarning "Zhuohan Li"])
  end.
Proof.
  intros Hinit H. apply init_accounts in Hinit as [He Hb].
  rewrite prepare_unfold in H.
  destruct (resolve_account _ "Zhuohan Li") as [account|] eqn:Hres.
  - destruct (mapped_entries_resolved (HR:=DwightEntry_raw) journal _ _ _ He Hres) as [Hme Hue].
    destruct (mapped_entries_resolved (HR:=RawBalance_raw) journal _ _ _ Hb Hres) as [Hmb _].
    repeat split; [done..|].
    destruct (match_entries _ _ _) as [pending unmatched].
    apply add_balance_entries_dates in H as (dates & _ & ->). simpl.
    rewrite Hue, elements_empty. simpl. by rewrite app_nil_r.
  - destruct (mapped_entries_unresolved (HR:=DwightEntry_raw) journal _ _ He Hres) as [Hme Hue].
    destruct (mapped_entries_unresolved (HR:=RawBalance_raw) journal _ _ Hb Hres) as [Hmb _].
    rewrite Hme, Hmb, Hue in H. simpl in H. injection H as <-. simpl.
    rewrite app_nil_r. split; [done|].
    destruct (DwightSource.dwight_entries self) as [|e es].
    + rewrite elements_empty. simpl. rewrite app_nil_r. split; [lia | done].
    + rewrite elements_singleton. simpl. rewrite length_app. simpl. split; [lia | done].
Qed.

Lemma loaded_source_resolves_together_witness :
  match resolve_account (dwight_id_to_account unmapped_journal) "Zhuohan Li" with
  | Some account =>
      mapped_entries unmapped_journal (DwightSource.dwight_entries example_source)
        = (fun e => replace_account e account) <$> DwightSource.dwight_entries example_source /\
      mapped_entries unmapped_journal (DwightSource.balances example_source)
        = (fun b => replace_account b account) <$> DwightSource.balances example_source /\
      SourceResults.warnings (SourceResults.mk [] [] [NoAccountWarning "Zhuohan Li"])
        = SourceResults.warnings SourceResults.empty
  | None =>
      SourceResults.pending (SourceResults.mk [] [] [NoAccountWarning "Zhuohan Li"])
        = SourceResults.pending SourceResults.empty /\
      (length (SourceResults.warnings (SourceResults.mk [] [] [NoAccountWarning "Zhuohan Li"]))
         <= length (SourceResults.warnings SourceResults.empty) + 1)%nat /\
      (DwightSource.dwight_entries example_source <> [] ->
       SourceResults.warnings (SourceResults.mk [] [] [NoAccountWarning "Zhuohan Li"])
         = SourceResults.warnings SourceResults.empty ++ [NoAccountWarning "Zhuohan Li"])
  end.
Proof.
  apply (loaded_source_resolves_together example_fs "dwight.csv" (Some "dwight.csv")
           example_source unmapped_journal SourceResults.empty).
  - reflexivity.
  - vm_compute. reflexivity.
Defined.

(** * The sign of an amount *)

(** ** Stripping *)

Lemma rev_app_append_acc s : forall u t,
  String.rev_app s (u +:+ t) = String.rev_app s u +:+ t.
Proof.
  induction s as [|a s IH]; intros u t; simpl; [done|]. exact (IH (String a u) t).
Qed.

Lemma rev_app_append s t : String.rev_app s t = String.rev s +:+ t.
Proof. exact (rev_app_append_acc s "" t). Qed.

Lemma rev_app_append_single s a : forall t,
  String.rev_app (s +:+ String a "") t = String a (String.rev_app s t).
Proof. induction s as [|b s IH]; intros t; simpl; [done | apply IH]. Qed.

Lemma rev_append_single s a : String.rev (s +:+ String a "") = String a (String.rev s).
Proof. apply rev_app_append_single. Qed.

Lemma lstrip_append_single s a :
  lstrip (s +:+ String a "")
  = match lstrip s with
    | "" => if is_space a then "" else String a ""
    | String b r => String b r +:+ String a ""
    end.
Proof.
  induction s as [|b s IH]; simpl; [by destruct (is_space a)|].
  destruct (is_space b); [exact IH | done].
Qed.

(** What [strip] leaves of a string after its first character: its
    trailing white space goes, and the first character too when the
    string is white space only. *)
Lemma rstrip_cons a s :
  String.rev (lstrip (String.rev (String a s)))
  = match String.rev (lstrip (String.rev s)) with
    | "" => if is_space a then "" else String a ""
    | String b r => String a (String b r)
    end.
Proof.
  change (String.rev (String a s)) with (String.rev_app s (String a "")).
  rewrite rev_app_append, lstrip_append_single.
  destruct (lstrip (String.rev s)) as [|b r] eqn:Hl.
  - by destruct (is_space a).
  - rewrite rev_append_single.
    destruct (String.rev (String b r)) as [|c t] eqn:Hr; [|done].
    exfalso. unfold String.rev in Hr. simpl in Hr. rewrite rev_app_append in Hr.
    by destruct (String.rev r).
Qed.

Lemma strip_nonspace a s :
  is_space a = false ->
  strip (String a s) = String a (String.rev (lstrip (String.rev s))).
Proof.
  intros Ha. unfold strip. simpl lstrip at 2. rewrite Ha, rstrip_cons, Ha.
  by destruct (String.rev (lstrip (String.rev s))).
Qed.

Lemma strip_space a s :
  is_space a = true ->
  String.rev (lstrip (String.rev (String a s))) = ""
  \/ exists r, String.rev (lstrip (String.rev (String a s))) = String a r.
Proof.
  intros Ha. rewrite rstrip_cons, Ha.
  destruct (String.rev (lstrip (String.rev s))); eauto.
Qed.

(** ** The number after the sign *)

Lemma Decimal_of_string_parse s :
  Decimal_of_string s
  = let '(neg, s') :=
      read_sign (string_filter (fun c => negb (Ascii.eqb c "_")) (strip s)) in
    parse_unsigned neg s'.
Proof. reflexivity. Qed.

Lemma parse_unsigned_None neg a s :
  is_digit a = false -> a <> "."%char -> parse_unsigned neg (String a s) = None.
Proof.
  intros Hd Hp. unfold parse_unsigned. simpl. rewrite Hd.
  destruct a as [[] [] [] [] [] [] [] []]; try reflexivity. by destruct Hp.
Qed.

(** A number begins with a digit or with the point. *)
Lemma parse_unsigned_Some neg s d :
  parse_unsigned neg s = Some d ->
  (exists a s', s = String a s' /\ (is_digit a = true \/ a = "."%char)) /\
  dec_sign d = neg /\
  forall neg', parse_unsigned neg' s = Some (mkDecimal neg' (dec_int d) (dec_exp d)).
Proof.
  intros H. split.
  - destruct s as [|a s']; [discriminate|]. exists a, s'. split; [done|].
    destruct (is_digit a) eqn:Hd; [by left|]. right.
    destruct (ascii_dec a ".") as [|Hp]; [done|].
    by rewrite (parse_unsigned_None neg a s' Hd Hp) in H.
  - unfold parse_unsigned in *. destruct (span_digits s) as [intpart s1].
    destruct (match s1 with String "." s' => span_digits s' | _ => ("", s1) end)
      as [fracpart s2].
    destruct (_ && _); [discriminate|].
    destruct (read_exponent s2) as [e|]; [|discriminate].
    simpl in H. injection H as <-. simpl. split; reflexivity.
Qed.

Lemma is_digit_not_space a : is_digit a = true -> is_space a = false.
Proof.
  unfold is_digit, is_space. intros H.
  apply andb_true_iff in H as [H1 H2]. apply Nat.leb_le in H1, H2.
  apply orb_false_iff. split; apply andb_false_iff.
  - right. apply Nat.leb_gt. lia.
  - right. apply Nat.leb_gt. lia.
Qed.

Lemma is_space_not_underscore a : is_space a = true -> Ascii.eqb a "_" = false.
Proof. intros H. destruct (Ascii.eqb_spec a "_"); [by subst | done]. Qed.

(** A string that reads as a number after its white space at the end
    and its underscores are dropped has no white space to drop at its
    start. *)
Lemma strip_of_number s a y :
  string_filter (fun c => negb (Ascii.eqb c "_")) (String.rev (lstrip (String.rev s)))
    = String a y ->
  is_space a = false ->
  strip s = String.rev (lstrip (String.rev s)).
Proof.
  intros Hy Ha. unfold strip. destruct s as [|b s']; [done|].
  simpl lstrip at 2. destruct (is_space b) eqn:Hb; [|done]. exfalso.
  destruct (strip_space b s' Hb) as [Hr | (r & Hr)]; rewrite Hr in Hy; [discriminate|].
  simpl in Hy. rewrite (is_space_not_underscore b Hb) in Hy. simpl in Hy.
  injection Hy as <- _. congruence.
Qed.

Lemma read_sign_number a s :
  is_digit a = true \/ a = "."%char -> read_sign (String a s) = (false, String a s).
Proof.
  intros [Hd | ->]; [|reflexivity].
  destruct a as [[] [] [] [] [] [] [] []]; try reflexivity; discriminate.
Qed.

(** X18.  The sign read by hand agrees with the sign read by [D]: when
    [D] accepts an amount that begins with a minus sign, as a decimal
    of the context's precision, the loaders read it too, as a decimal
    of the same value. *)
Theorem signed_number_agrees_with_D rest d :
  D (String "-" rest) = inr d ->
  within_context d ->
  exists n, signed_number (Some (String "-" rest)) = inr n /\ Decimal_eqb n d = true.
Proof.
  intros H Hctx. unfold D in H. simpl in H.
  set (c := string_filter (fun c => negb (Ascii.eqb c "," || Ascii.eqb c " ")) rest) in *.
  destruct (Decimal_of_string (String "-" c)) as [d0|] eqn:Hp; [|discriminate].
  injection H as ->.
  rewrite Decimal_of_string_parse, strip_nonspace in Hp by reflexivity. simpl in Hp.
  apply parse_unsigned_Some in Hp as ((a & y & Hy & Ha) & Hsign & Hother).
  assert (is_space a = false) as Hns.
  { destruct Ha as [Ha | ->]; [by apply is_digit_not_space | reflexivity]. }
  assert (D rest = inr (mkDecimal false (dec_int d) (dec_exp d))) as HD.
  { unfold D. destruct rest as [|b rest']; [discriminate Hy|].
    simpl String.eqb. fold c.
    rewrite Decimal_of_string_parse, (strip_of_number c a y Hy Hns), Hy.
    rewrite (read_sign_number a y Ha), <- Hy. by rewrite Hother. }
  simpl. rewrite HD. simpl. eexists. split; [reflexivity|].
  assert (within_context (mkDecimal false (dec_int d) (dec_exp d))) as Hctx' by exact Hctx.
  unfold Decimal_eqb. rewrite (dec_signed_neg _ Hctx'), (dec_exp_neg _ Hctx'). simpl.
  unfold dec_signed. rewrite Hsign. simpl. apply Z.eqb_refl.
Qed.

Lemma signed_number_agrees_with_D_witness :
  exists n, signed_number (Some "-1,234.50") = inr n /\
            Decimal_eqb n (mkDecimal true 123450 (-2)) = true.
Proof.
  apply (signed_number_agrees_with_D "1,234.50").
  - reflexivity.
  - split; [reflexivity | simpl; lia].
Defined.
